(** * LifeTheGame: the cell grid, the pixel encoder and the frame loop

    A shallow embedding of [src/main.cpp].  Cells are 8-bit ages, pixels are
    32-bit colours; both are kept as [Z] with the C++ conversions written
    out.  Code whose behaviour is undefined in C++ (an access outside a
    vector, an overflowing [int] operation) yields [None]. *)

From stdpp Require Import base numbers option list strings.

Local Open Scope Z_scope.

(** ** Machine integers *)

Module Machine.

(** Conversion to [std::uint8_t] and [std::uint32_t]: reduction modulo
    the width. *)
Definition u8 (z : Z) : Z := z mod 256.
Definition u32 (z : Z) : Z := z mod 2 ^ 32.

(** Conversion of a [std::uint32_t] value to [int]. *)
Definition to_int (u : Z) : Z := if u <? 2 ^ 31 then u else u - 2 ^ 32.

(** The result of an [int] operation: overflow is undefined. *)
Definition in_int (z : Z) : bool := (- 2 ^ 31 <=? z) && (z <? 2 ^ 31).
Definition int_result (z : Z) : option Z := if in_int z then Some z else None.

Definition int_add (a b : Z) : option Z := int_result (a + b).
Definition int_sub (a b : Z) : option Z := int_result (a - b).
Definition int_mul (a b : Z) : option Z := int_result (a * b).

(** [v[i]] read and [v[i] = a] on a vector or on its [data()] pointer. *)
Definition at_ {A} (v : list A) (i : Z) : option A :=
  if i <? 0 then None else v !! Z.to_nat i.

Definition assign {A} (v : list A) (i : Z) (a : A) : option (list A) :=
  if (0 <=? i) && (i <? Z.of_nat (length v))
  then Some (<[Z.to_nat i := a]> v) else None.

(** [for (auto i = 0u; i < n; i++) body], threading the state [s]. *)
Fixpoint for_range {St} (n : nat) (i : Z) (body : Z → St → option St) (s : St)
  : option St :=
  match n with
  | O => Some s
  | S n' => s' ← body i s; for_range n' (i + 1) body s'
  end.

Definition for_upto {St} (n : Z) (body : Z → St → option St) (s : St)
  : option St :=
  for_range (Z.to_nat n) 0 body s.

End Machine.

Import Machine.

(** ** The cell grid *)

(** [std::vector<std::uint8_t>] and [std::vector<std::uint32_t>]. *)
Abbreviation Cells := (list Z) (only parsing).
Abbreviation Pixels := (list Z) (only parsing).

(** [std::uint8_t] converted to [bool]. *)
Definition truthy (c : Z) : bool := negb (c =? 0).

Definition isLive (data : Cells) (x y w h : Z) : option bool :=
  if (0 <? x) && (0 <? y) && (x <? w) && (y <? h) then
    yw ← int_mul y w;
    i ← int_add yw x;
    c ← at_ data i;
    Some (truthy c)
  else Some false.

(** [count += b] on a [std::uint8_t] counter. *)
Definition count_add (count : Z) (b : bool) : Z := u8 (count + Z.b2z b).

Definition neighbors (data : Cells) (x y w h : Z) : option Z :=
  let count := 0 in
  x' ← int_sub x 1; y' ← int_sub y 1; b ← isLive data x' y' w h;
  let count := count_add count b in
  y' ← int_sub y 1; b ← isLive data x y' w h;
  let count := count_add count b in
  x' ← int_add x 1; y' ← int_sub y 1; b ← isLive data x' y' w h;
  let count := count_add count b in

  x' ← int_sub x 1; b ← isLive data x' y w h;
  let count := count_add count b in
  x' ← int_add x 1; b ← isLive data x' y w h;
  let count := count_add count b in

  x' ← int_sub x 1; y' ← int_add y 1; b ← isLive data x' y' w h;
  let count := count_add count b in
  y' ← int_add y 1; b ← isLive data x y' w h;
  let count := count_add count b in
  x' ← int_add x 1; y' ← int_add y 1; b ← isLive data x' y' w h;
  let count := count_add count b in
  Some count.

(** The body of the inner loop of [updateCells]: [data] is the snapshot
    [old], [cells] the grid being written. *)
Definition updateCell (data : Cells) (w h y x : Z) (cells : Cells) : option Cells :=
  let index := u32 (y * w + x) in
  count ← neighbors data (to_int x) (to_int y) (to_int w) (to_int h);
  d ← at_ data index;
  if truthy d then
    if (count <? 2) || (3 <? count) then assign cells index 0
    else
      c ← at_ cells index;
      if c <? 255 then assign cells index (u8 (c + 1)) else Some cells
  else
    if count =? 3 then assign cells index 1 else Some cells.

Definition updateCells (cells : Cells) (w h : Z) : option Cells :=
  let data := cells in
  for_upto h (λ y, for_upto w (updateCell data w h y)) cells.

(** [n] successive calls of [updateCells]. *)
Fixpoint generations (n : nat) (cells : Cells) (w h : Z) : option Cells :=
  match n with
  | O => Some cells
  | S n' => g ← generations n' cells w h; updateCells g w h
  end.

(** ** Seeding *)

(** The random source is explicit: [draw i] is the value of the [i]-th call
    [dist(mt)], where [dist] is [uniform_int_distribution<uint8_t>(0, 100)],
    uniform on the closed range [dist_min .. dist_max]. *)
Definition dist_min : Z := 0.
Definition dist_max : Z := 100.

(** The values [dist] returns, each equally likely. *)
Definition dist_values : list Z :=
  (λ i, dist_min + Z.of_nat i) <$> seq 0 (Z.to_nat (dist_max - dist_min + 1)).

(** The generator lambda, [return dist(mt) < 15], stored as [std::uint8_t]. *)
Definition seed (d : Z) : Z := u8 (Z.b2z (d <? 15)).

(** [std::vector<T>(n, 0)] for an [int] expression [n]: a negative size
    produces no vector (the constructor throws). *)
Definition vector_of_zeros (n : Z) : option (list Z) :=
  if n <? 0 then None else Some (replicate (Z.to_nat n) 0).

Definition createCells (width height : Z) (draw : nat → Z) : option Cells :=
  n ← int_mul width height;
  cells ← vector_of_zeros n;
  Some (imap (λ i _, seed (draw i)) cells).

Definition createPixelData (width height : Z) : option Pixels :=
  n ← int_mul width height;
  vector_of_zeros n.

(** ** The pixel encoder *)

(** [*c << 24] on the promoted [int]. *)
Definition int_shl (a n : Z) : Z := to_int (u32 (Z.shiftl a n)).

(** [*c ? (0x0000ff00 | *c << 24) : 0x00000000], stored as [std::uint32_t]. *)
Definition encode (c : Z) : Z :=
  u32 (if truthy c then Z.lor 0x0000ff00 (int_shl c 24) else 0x00000000).

(** The two iterators advance together; writing through [p] past the end of
    [pixels] is undefined. *)
Fixpoint updatePixelData (pixels : Pixels) (cells : Cells) {struct cells}
  : option Pixels :=
  match cells with
  | [] => Some pixels
  | c :: cells' =>
      match pixels with
      | [] => None
      | _ :: pixels' => (encode c ::.) <$> updatePixelData pixels' cells'
      end
  end.

(** ** The process: display surface, frame loop and exit status *)

Inductive Event :=
  | SDL_QUIT
  | SDL_KEYDOWN (sym : Z)
  | SDL_OTHER.

Definition SDLK_ESCAPE : Z := 27.

(** What the process does to the outside, in program order.  [Encode] and
    [Advance] mark the calls of [updatePixelData] and [updateCells]. *)
Inductive Action :=
  | Cout (line : string)
  | Cerr (line : string)
  | Encode
  | Advance
  | UpdateTexture (pixels : list Z) (pitch : Z)
  | RenderClear
  | RenderCopy
  | RenderPresent
  | PollEvent (e : Event)
  | Quit.

Inductive Status :=
  | Exited (code : Z)
  | Running
  | Undefined.

(** What the platform answers.  [exception_what] is the string the C++
    library returns from [what()] on an object of type [std::exception]
    itself. *)
Record Platform := {
  sdl_init : Z;
  display_mode : option (Z * Z);
  window_ok : bool;
  renderer_ok : bool;
  texture_ok : bool;
  draw : nat → Z;
  pending : list (list Event);
  exception_what : string
}.

Inductive exception :=
  | std_exception
  | std_runtime_error (msg : string)
  | std_length_error (msg : string).

Definition what (P : Platform) (e : exception) : string :=
  match e with
  | std_exception => exception_what P
  | std_runtime_error msg => msg
  | std_length_error msg => msg
  end.

(** [catch (std::exception e)]: the handler's [e] is a [std::exception]
    copy-constructed from the thrown object, whatever its class. *)
Definition catch_by_value (thrown : exception) : exception := std_exception.

(** The [switch] on one polled event. *)
Definition handle (run : bool) (e : Event) : bool :=
  match e with
  | SDL_KEYDOWN sym => if sym =? SDLK_ESCAPE then false else run
  | SDL_QUIT => false
  | SDL_OTHER => run
  end.

(** [while (SDL_PollEvent(&event))] over the events pending at that time. *)
Definition drain (events : list Event) (run : bool) : bool :=
  foldl handle run events.

(** One iteration of [while (run)]. *)
Definition tick (field_w field_h : Z) (events : list Event)
    (pixels : Pixels) (cells : Cells)
  : option (list Action * Pixels * Cells * bool) :=
  pixels ← updatePixelData pixels cells;
  cells ← updateCells cells (u32 field_w) (u32 field_h);
  pitch ← int_mul field_w 4;
  let run := drain events true in
  Some ([Encode; Advance; UpdateTexture pixels pitch;
         RenderClear; RenderCopy; RenderPresent] ++ (PollEvent <$> events),
        pixels, cells, run).

(** The frame loop, one list of actions per iteration.  When the supplied
    batches of events end before a stop is requested the loop is still
    [Running]. *)
Fixpoint frame_loop (field_w field_h : Z) (pending : list (list Event))
    (pixels : Pixels) (cells : Cells) : list (list Action) * Status :=
  match pending with
  | [] => ([], Running)
  | events :: pending' =>
      match tick field_w field_h events pixels cells with
      | None => ([], Undefined)
      | Some (acts, pixels, cells, run) =>
          if run then
            let '(ticks, st) := frame_loop field_w field_h pending' pixels cells in
            (acts :: ticks, st)
          else ([acts], Exited 0)
      end
  end.

Record Run := { trace : list Action; status : Status }.

(** The handler of [main]'s function-try-block. *)
Definition handler (P : Platform) (before : list Action) (thrown : exception) : Run :=
  let e := catch_by_value thrown in
  {| trace := before ++ [Cerr (what P e); Quit]; status := Exited 1 |}.

(** In [createPixelData(field_w, field_h)] the product [width * height] is
    an [int] operation, undefined when it overflows; when it is negative the
    constructor of the vector throws [std::length_error], which the handler
    catches once the three handles have been released.  Memory exhaustion
    ([std::bad_alloc]) is not part of this model. *)
Definition main (P : Platform) : Run :=
  if negb (sdl_init P =? 0)
  then handler P [] (std_runtime_error "SDL initialize failed!")
  else
  match display_mode P with
  | None => handler P [] (std_runtime_error "SDL can't get resolution!")
  | Some (width, height) =>
  let field_w := Z.quot width 2 in
  let field_h := Z.quot height 2 in
  let t := [Cout "Create window"] in
  if negb (window_ok P)
  then handler P (t ++ [Cout "Destroy window"])
               (std_runtime_error "Create window failed")
  else
  let t := t ++ [Cout "Create renderer"] in
  if negb (renderer_ok P)
  then handler P (t ++ [Cout "Destroy renderer"; Cout "Destroy window"])
               (std_runtime_error "Create renderer failed")
  else
  let t := t ++ [Cout "Create texture"] in
  let release := [Cout "Destroy texture"; Cout "Destroy renderer";
                  Cout "Destroy window"] in
  if negb (texture_ok P)
  then handler P (t ++ release) (std_runtime_error "Create texture failed")
  else
  match int_mul field_w field_h with
  | None => {| trace := t; status := Undefined |}
  | Some _ =>
  match createPixelData field_w field_h, createCells field_w field_h (draw P) with
  | Some pixels, Some cells =>
      let '(ticks, st) := frame_loop field_w field_h (pending P) pixels cells in
      match st with
      | Exited code =>
          {| trace := t ++ concat ticks ++ [Quit] ++ release; status := Exited code |}
      | _ => {| trace := t ++ concat ticks; status := st |}
      end
  | _, _ =>
      handler P (t ++ release)
        (std_length_error "cannot create std::vector larger than max_size()")
  end
  end
  end.

(** ** Reference descriptions and example grids *)

(** A grid as [main] builds it: [w * h] bytes, the product fitting an [int]
    (it is computed as one by [createCells]). *)
Definition is_u8 (c : Z) : bool := (0 <=? c) && (c <? 256).

Definition wf_grid (cells : Cells) (w h : Z) : bool :=
  (0 <=? w) && (0 <=? h) && (Z.of_nat (length cells) =? w * h)
  && (w * h <? 2 ^ 31) && forallb is_u8 cells.

(** The age stored for column [x] of row [y]. *)
Definition cell (data : Cells) (w x y : Z) : Z :=
  default 0 (data !! Z.to_nat (y * w + x)).

(** The boundary policy in the words of the description: strictly above
    [(0, 0)], strictly below [(w, h)]. *)
Definition eligible (x y w h : Z) : bool :=
  (0 <? x) && (0 <? y) && (x <? w) && (y <? h).

Definition live_neighbor (data : Cells) (x y w h : Z) : bool :=
  eligible x y w h && truthy (cell data w x y).

(** The Moore neighbourhood, in the order [neighbors] visits it. *)
Definition moore : list (Z * Z) :=
  [(-1, -1); (0, -1); (1, -1); (-1, 0); (1, 0); (-1, 1); (0, 1); (1, 1)].

Definition neighbor_count (data : Cells) (x y w h : Z) : Z :=
  foldl (λ n d, n + Z.b2z (live_neighbor data (x + d.1) (y + d.2) w h)) 0 moore.

(** The update rule in the words of the description. *)
Definition rule (c n : Z) : Z :=
  if decide (c ≠ 0) then
    if decide (n < 2 ∨ 3 < n) then 0
    else if decide (c = 255) then 255 else c + 1
  else
    if decide (n = 3) then 1 else c.

(** The next generation, cell by cell, from the snapshot [data]. *)
Definition next_cell (data : Cells) (w h : Z) (i : nat) : Z :=
  let x := Z.of_nat i mod w in
  let y := Z.of_nat i / w in
  rule (default 0 (data !! i)) (neighbor_count data x y w h).

Definition next_grid (data : Cells) (w h : Z) : Cells :=
  imap (λ i _, next_cell data w h i) data.

(** The loop invariant of [updateCells]: the cells in front of position [k]
    (row-major) hold the next generation, the others still hold the
    snapshot [data]. *)
Definition updated_upto (data : Cells) (w h : Z) (k : Z) (cells : Cells) : Prop :=
  length cells = length data
  ∧ ∀ j : nat,
      (Z.of_nat j < k → cells !! j = Some (next_cell data w h j))
      ∧ (k ≤ Z.of_nat j → cells !! j = data !! j).

(** The 5x5 grid with a 2x2 block at rows and columns 2-3. *)
Definition block5 (age : Z) : Cells :=
  [0; 0; 0;   0;   0;
   0; 0; 0;   0;   0;
   0; 0; age; age; 0;
   0; 0; age; age; 0;
   0; 0; 0;   0;   0].

(** A 3x3 grid with every cell alive. *)
Definition full3 : Cells := replicate 9 1.

(** Outcomes of one draw for which the seeded cell is alive. *)
Definition alive_draws : list Z := filter (λ d, seed d ≠ 0) dist_values.

(** A platform on which everything succeeds and the user presses escape
    during the second frame. *)
Definition demo_platform : Platform :=
  {| sdl_init := 0; display_mode := Some (6, 4);
     window_ok := true; renderer_ok := true; texture_ok := true;
     draw := λ i, Z.of_nat i * 7 mod 101;
     pending := [[SDL_OTHER]; [SDL_KEYDOWN SDLK_ESCAPE; SDL_OTHER]];
     exception_what := "std::exception" |}.

(** The same platform with [SDL_Init] failing. *)
Definition failing_platform : Platform :=
  {| sdl_init := -1; display_mode := Some (6, 4);
     window_ok := true; renderer_ok := true; texture_ok := true;
     draw := λ i, Z.of_nat i * 7 mod 101;
     pending := []; exception_what := "std::exception" |}.

(** ** Projections of a trace and further example inputs *)

(** The lines written to [std::cout], in order. *)
Definition couts (t : list Action) : list string :=
  omap (λ a, match a with Cout line => Some line | _ => None end) t.

(** The calls of [SDL_Quit]. *)
Definition quits (t : list Action) : list Action :=
  omap (λ a, match a with Quit => Some a | _ => None end) t.

(** The messages of the three [create_*] functions, in the order [main]
    calls them, and of the matching [destroy_*] functions. *)
Definition creates : list string :=
  ["Create window"; "Create renderer"; "Create texture"].
Definition destroys : list string :=
  ["Destroy window"; "Destroy renderer"; "Destroy texture"].

(** A 3x3 grid alive off the top row and the left column only. *)
Definition inner3 : Cells := [0; 0; 0;  0; 1; 1;  0; 1; 1].

(** A 4x4 grid with ages up to 255. *)
Definition aged4 : Cells :=
  [0; 0; 0; 0;  0; 255; 7; 0;  0; 3; 0; 0;  0; 0; 0; 1].

(** The same platform with [SDL_CreateTexture] failing. *)
Definition texture_failing_platform : Platform :=
  {| sdl_init := 0; display_mode := Some (6, 4);
     window_ok := true; renderer_ok := true; texture_ok := false;
     draw := λ i, Z.of_nat i * 7 mod 101;
     pending := []; exception_what := "std::exception" |}.

(** A platform that reports a display of negative width. *)
Definition negative_platform : Platform :=
  {| sdl_init := 0; display_mode := Some (-2, 4);
     window_ok := true; renderer_ok := true; texture_ok := true;
     draw := λ i, Z.of_nat i * 7 mod 101;
     pending := []; exception_what := "std::exception" |}.

(** * Properties *)

(** ** Machine integers and vectors *)

Lemma u8_small z : 0 ≤ z < 256 → u8 z = z.
Proof. intros. unfold u8. by rewrite Z.mod_small. Qed.

Lemma u32_small z : 0 ≤ z < 2 ^ 32 → u32 z = z.
Proof. intros. unfold u32. by rewrite Z.mod_small. Qed.

Lemma to_int_small z : z < 2 ^ 31 → to_int z = z.
Proof. intros. unfold to_int. by rewrite (proj2 (Z.ltb_lt _ _)). Qed.

Lemma int_result_in z : - 2 ^ 31 ≤ z < 2 ^ 31 → int_result z = Some z.
Proof.
  intros. unfold int_result, in_int.
  by rewrite (proj2 (Z.leb_le _ _)), (proj2 (Z.ltb_lt _ _)) by lia.
Qed.

Lemma at_lookup {A} (v : list A) i : 0 ≤ i → at_ v i = v !! Z.to_nat i.
Proof. intros. unfold at_. by rewrite (proj2 (Z.ltb_ge _ _)). Qed.

Lemma assign_in {A} (v : list A) i a :
  0 ≤ i < Z.of_nat (length v) → assign v i a = Some (<[Z.to_nat i := a]> v).
Proof.
  intros. unfold assign.
  by rewrite (proj2 (Z.leb_le _ _)), (proj2 (Z.ltb_lt _ _)) by lia.
Qed.

Lemma assign_Some {A} (v v' : list A) i a :
  assign v i a = Some v' → 0 ≤ i < Z.of_nat (length v) ∧ length v' = length v.
Proof.
  unfold assign. intros Hv.
  destruct (0 <=? i) eqn:H0; [|done]. destruct (i <? _) eqn:H1; [|done].
  simpl in Hv. injection Hv as <-. rewrite length_insert. lia.
Qed.

(** A loop establishes its invariant. *)
Lemma for_range_inv {St} (I : Z → St → Prop) body n i (s : St) :
  I i s →
  (∀ j t, i ≤ j < i + Z.of_nat n → I j t →
          ∃ t', body j t = Some t' ∧ I (j + 1) t') →
  ∃ s', for_range n i body s = Some s' ∧ I (i + Z.of_nat n) s'.
Proof.
  revert i s. induction n as [|n IH]; intros i s Hi Hbody.
  - exists s. split; [done|]. by replace (i + Z.of_nat 0) with i by lia.
  - destruct (Hbody i s) as (t & Ht & HI); [lia|done|].
    destruct (IH (i + 1) t) as (s' & Hs' & HI'); [done| |].
    + intros j u Hj. apply Hbody. lia.
    + exists s'. simpl. rewrite Ht. simpl. split; [done|].
      by replace (i + Z.of_nat (S n)) with (i + 1 + Z.of_nat n) by lia.
Qed.


(** ** The liveness probe and the neighbour count *)

Lemma wf_grid_unpack (cells : list Z) w h :
  wf_grid cells w h = true →
  0 ≤ w ∧ 0 ≤ h ∧ Z.of_nat (length cells) = w * h ∧ w * h < 2 ^ 31
  ∧ Forall (λ c, 0 ≤ c < 256) cells.
Proof.
  unfold wf_grid. rewrite !andb_true_iff.
  intros ((((Hw & Hh) & Hlen) & Hint) & Hu8).
  apply Z.leb_le in Hw, Hh. apply Z.eqb_eq in Hlen. apply Z.ltb_lt in Hint.
  repeat split; try done.
  apply Forall_forall. intros c Hc.
  rewrite forallb_forall in Hu8. apply list_elem_of_In, Hu8 in Hc.
  unfold is_u8 in Hc. apply andb_true_iff in Hc as [H1 H2].
  apply Z.leb_le in H1. apply Z.ltb_lt in H2. lia.
Qed.

Lemma eligible_true x y w h :
  eligible x y w h = true ↔ 0 < x < w ∧ 0 < y < h.
Proof.
  unfold eligible. rewrite !andb_true_iff, !Z.ltb_lt. lia.
Qed.

Lemma eligible_false x y w h :
  eligible x y w h = false ↔ ¬ (0 < x < w ∧ 0 < y < h).
Proof.
  rewrite <- eligible_true. destruct (eligible x y w h); naive_solver.
Qed.

(** Outside the guard nothing is read: the answer does not depend on the
    buffer at all. *)
Lemma isLive_outside (data : list Z) x y w h :
  eligible x y w h = false → isLive data x y w h = Some false.
Proof. unfold isLive, eligible. by intros ->. Qed.

Section grid_facts.

Variables (data : list Z) (w h : Z).
Hypothesis Hwf : wf_grid data w h = true.

Lemma index_in_grid x y :
  0 ≤ x < w → 0 ≤ y < h → 0 ≤ y * w + x < w * h.
Proof. intros. nia. Qed.

Lemma cell_lookup x y :
  0 ≤ x < w → 0 ≤ y < h →
  data !! Z.to_nat (y * w + x) = Some (cell data w x y).
Proof.
  intros Hx Hy. destruct (wf_grid_unpack _ _ _ Hwf) as (_ & _ & Hlen & _).
  pose proof (index_in_grid x y Hx Hy).
  unfold cell.
  destruct (lookup_lt_is_Some_2 data (Z.to_nat (y * w + x))) as [c ->];
    [lia|done].
Qed.

Lemma cell_u8 x y : 0 ≤ x < w → 0 ≤ y < h → 0 ≤ cell data w x y < 256.
Proof.
  intros Hx Hy. destruct (wf_grid_unpack _ _ _ Hwf) as (_ & _ & _ & _ & Hu8).
  pose proof (cell_lookup x y Hx Hy) as Hc.
  by apply (Forall_lookup_1 _ _ _ _ Hu8 Hc).
Qed.

Lemma isLive_inside x y :
  eligible x y w h = true →
  isLive data x y w h = Some (truthy (cell data w x y)).
Proof.
  intros He. pose proof He as He'. apply eligible_true in He' as [Hx Hy].
  destruct (wf_grid_unpack _ _ _ Hwf) as (_ & _ & _ & Hint & _).
  pose proof (index_in_grid x y ltac:(lia) ltac:(lia)).
  unfold isLive. fold (eligible x y w h). rewrite He.
  unfold int_mul, int_add.
  rewrite (int_result_in (y * w)) by nia. simpl.
  rewrite (int_result_in (y * w + x)) by lia. simpl.
  rewrite at_lookup by lia.
  by rewrite cell_lookup by lia.
Qed.

Lemma isLive_spec x y :
  isLive data x y w h = Some (live_neighbor data x y w h).
Proof.
  unfold live_neighbor. destruct (eligible x y w h) eqn:He.
  - by rewrite isLive_inside.
  - by rewrite isLive_outside.
Qed.

Lemma neighbor_count_bound x y : 0 ≤ neighbor_count data x y w h ≤ 8.
Proof.
  unfold neighbor_count, moore. simpl.
  repeat match goal with
         | |- context [live_neighbor ?d ?a ?b ?c ?e] =>
             destruct (live_neighbor d a b c e)
         end; simpl; lia.
Qed.

Lemma neighbors_spec x y :
  - 2 ^ 31 < x < 2 ^ 31 - 1 → - 2 ^ 31 < y < 2 ^ 31 - 1 →
  neighbors data x y w h = Some (neighbor_count data x y w h).
Proof.
  intros Hx Hy. unfold neighbors, int_sub, int_add.
  rewrite !int_result_in by lia. simpl.
  rewrite !isLive_spec. simpl.
  unfold neighbor_count, moore. simpl.
  rewrite !Z.add_0_r.
  replace (x + -1) with (x - 1) by lia.
  replace (y + -1) with (y - 1) by lia.
  f_equal. unfold count_add.
  repeat match goal with
         | |- context [live_neighbor ?d ?a ?b ?c ?e] =>
             destruct (live_neighbor d a b c e)
         end; reflexivity.
Qed.

End grid_facts.

(** ** One generation *)

Section update_facts.

Variables (data : list Z) (w h : Z).
Hypothesis Hwf : wf_grid data w h = true.

Local Abbreviation updated_upto := (updated_upto data w h).

Lemma updateCell_spec x y (cells : list Z) :
  0 ≤ x < w → 0 ≤ y < h →
  length cells = length data →
  cells !! Z.to_nat (y * w + x) = data !! Z.to_nat (y * w + x) →
  updateCell data w h y x cells
  = Some (<[Z.to_nat (y * w + x) := next_cell data w h (Z.to_nat (y * w + x))]> cells).
Proof.
  intros Hx Hy Hlen Hsame.
  destruct (wf_grid_unpack _ _ _ Hwf) as (_ & _ & Hlen' & Hint & _).
  pose proof (index_in_grid w h x y Hx Hy) as Hi.
  pose proof (cell_lookup data w h Hwf x y Hx Hy) as Hc.
  pose proof (cell_u8 data w h Hwf x y Hx Hy) as Hu8.
  pose proof (neighbor_count_bound data w h x y) as Hn.
  assert (w ≤ w * h ∧ h ≤ w * h) as [Hw Hh] by nia.
  unfold updateCell.
  rewrite u32_small by lia. rewrite !to_int_small by lia.
  rewrite (neighbors_spec data w h Hwf) by lia. simpl.
  rewrite !at_lookup by lia. rewrite Hsame, Hc. simpl.
  unfold next_cell. rewrite Hc. simpl.
  rewrite Z2Nat.id by lia.
  replace ((y * w + x) mod w) with x
    by (rewrite Z.add_comm, Z.mod_add by lia; by rewrite Z.mod_small).
  replace ((y * w + x) / w) with y
    by (rewrite Z.add_comm, Z.div_add by lia; rewrite Z.div_small; lia).
  set (n := neighbor_count data x y w h) in *.
  set (c := cell data w x y) in *.
  unfold rule, truthy.
  destruct (Z.eqb_spec c 0) as [Hc0|Hc0]; simpl.
  - rewrite decide_False by lia.
    destruct (Z.eqb_spec n 3) as [Hn3|Hn3].
    + rewrite decide_True by done. apply assign_in. lia.
    + rewrite decide_False by done. f_equal. symmetry.
      apply list_insert_id. by rewrite Hsame.
  - rewrite decide_True by done.
    destruct ((n <? 2) || (3 <? n)) eqn:Hdie.
    + rewrite decide_True; [apply assign_in; lia|].
      apply orb_true_iff in Hdie as [?%Z.ltb_lt|?%Z.ltb_lt]; lia.
    + apply orb_false_iff in Hdie as [?%Z.ltb_ge ?%Z.ltb_ge].
      rewrite decide_False by lia.
      destruct (Z.ltb_spec c 255).
      * rewrite decide_False by lia. rewrite u8_small by lia.
        apply assign_in. lia.
      * rewrite decide_True by lia. f_equal. symmetry.
        apply list_insert_id. rewrite Hsame, Hc. f_equal. lia.
Qed.

Lemma updateCell_updated x y (cells : list Z) :
  0 ≤ x < w → 0 ≤ y < h →
  updated_upto (y * w + x) cells →
  ∃ cells', updateCell data w h y x cells = Some cells'
            ∧ updated_upto (y * w + (x + 1)) cells'.
Proof.
  intros Hx Hy [Hlen Hinv].
  pose proof (index_in_grid w h x y Hx Hy) as Hi.
  destruct (wf_grid_unpack _ _ _ Hwf) as (_ & _ & Hlen' & _).
  eexists. split.
  { apply updateCell_spec; try done. apply Hinv. lia. }
  split; [by rewrite length_insert|].
  intros j. destruct (decide (j = Z.to_nat (y * w + x))) as [->|Hne].
  - split; [|lia]. intros _. apply list_lookup_insert_eq. lia.
  - rewrite list_lookup_insert_ne by done.
    split; intros; apply Hinv; lia.
Qed.

Lemma row_updated y (cells : list Z) :
  0 ≤ y < h →
  updated_upto (y * w) cells →
  ∃ cells', for_upto w (updateCell data w h y) cells = Some cells'
            ∧ updated_upto ((y + 1) * w) cells'.
Proof.
  intros Hy Hinv.
  destruct (wf_grid_unpack _ _ _ Hwf) as (Hw & _).
  destruct (for_range_inv (λ x, updated_upto (y * w + x))
              (updateCell data w h y) (Z.to_nat w) 0 cells)
    as (cells' & Hrun & Hinv').
  - by rewrite Z.add_0_r.
  - intros x t Hx Ht. apply updateCell_updated; [lia|done|done].
  - exists cells'. split; [done|].
    by replace ((y + 1) * w) with (y * w + (0 + Z.of_nat (Z.to_nat w))) by lia.
Qed.

Lemma updateCells_updated :
  ∃ cells', updateCells data w h = Some cells' ∧ updated_upto (h * w) cells'.
Proof.
  destruct (wf_grid_unpack _ _ _ Hwf) as (_ & Hh & _).
  destruct (for_range_inv (λ y, updated_upto (y * w))
              (λ y, for_upto w (updateCell data w h y)) (Z.to_nat h) 0 data)
    as (cells' & Hrun & Hinv').
  - split; [done|]. intros j. split; [lia|done].
  - intros y t Hy Ht. apply row_updated; [lia|done].
  - exists cells'. split; [done|].
    by replace (h * w) with ((0 + Z.of_nat (Z.to_nat h)) * w) by (f_equal; lia).
Qed.

(** [updateCells] computes the next generation from the snapshot. *)
Lemma updateCells_next_grid : updateCells data w h = Some (next_grid data w h).
Proof.
  destruct updateCells_updated as (cells' & -> & Hlen & Hinv). f_equal.
  destruct (wf_grid_unpack _ _ _ Hwf) as (_ & _ & Hlen' & _).
  apply list_eq. intros j. unfold next_grid. rewrite list_lookup_imap.
  destruct (decide (j < length data)%nat) as [Hj|Hj].
  - destruct (lookup_lt_is_Some_2 data j Hj) as [c ->]. simpl.
    apply Hinv. lia.
  - rewrite (lookup_ge_None_2 data j) by lia. simpl.
    apply lookup_ge_None_2. lia.
Qed.

End update_facts.

Section generation_facts.

Variables (data : list Z) (w h : Z).
Hypothesis Hwf : wf_grid data w h = true.

Lemma next_grid_lookup x y :
  0 ≤ x < w → 0 ≤ y < h →
  next_grid data w h !! Z.to_nat (y * w + x)
  = Some (rule (cell data w x y) (neighbor_count data x y w h)).
Proof.
  intros Hx Hy. unfold next_grid. rewrite list_lookup_imap.
  rewrite (cell_lookup data w h Hwf) by done. simpl. f_equal.
  pose proof (index_in_grid w h x y Hx Hy).
  unfold next_cell. rewrite (cell_lookup data w h Hwf) by done. simpl.
  rewrite Z2Nat.id by lia.
  replace ((y * w + x) mod w) with x
    by (rewrite Z.add_comm, Z.mod_add by lia; by rewrite Z.mod_small).
  replace ((y * w + x) / w) with y
    by (rewrite Z.add_comm, Z.div_add by lia; rewrite Z.div_small; lia).
  done.
Qed.

Lemma rule_u8 c n : 0 ≤ c < 256 → 0 ≤ rule c n < 256.
Proof. intros. unfold rule. repeat case_decide; lia. Qed.

Lemma next_grid_length : length (next_grid data w h) = length data.
Proof. unfold next_grid. by rewrite length_imap. Qed.

Lemma next_grid_wf : wf_grid (next_grid data w h) w h = true.
Proof.
  destruct (wf_grid_unpack _ _ _ Hwf) as (Hw & Hh & Hlen & Hint & Hu8).
  unfold wf_grid. rewrite next_grid_length.
  rewrite !andb_true_iff. repeat split; try (by apply Z.leb_le);
    try (by apply Z.eqb_eq); try (by apply Z.ltb_lt).
  apply forallb_forall. intros c Hc.
  apply list_elem_of_In, list_elem_of_lookup in Hc as [j Hj].
  unfold next_grid in Hj. rewrite list_lookup_imap in Hj.
  destruct (data !! j) as [c0|] eqn:Hc0; [|done].
  simpl in Hj. injection Hj as <-.
  pose proof (Forall_lookup_1 _ _ _ _ Hu8 Hc0) as Hu.
  unfold next_cell. rewrite Hc0. simpl.
  pose proof (rule_u8 c0 (neighbor_count data (Z.of_nat j mod w) (Z.of_nat j / w) w h) Hu).
  unfold is_u8. apply andb_true_iff. split; [apply Z.leb_le|apply Z.ltb_lt]; lia.
Qed.

End generation_facts.

Lemma generations_wf n (cells : list Z) w h :
  wf_grid cells w h = true →
  ∃ g, generations n cells w h = Some g ∧ wf_grid g w h = true.
Proof.
  intros Hwf. induction n as [|n (g & Hg & Hgwf)]; simpl.
  - by exists cells.
  - rewrite Hg. simpl. rewrite (updateCells_next_grid g w h Hgwf).
    eexists. split; [done|]. by apply next_grid_wf.
Qed.

(** ** The cell grid: the update rule *)

(** C1. One call of [updateCells] on a grid applies the rule to every cell,
    with the neighbour count [neighbors] computes on the grid as it was
    before the call: an alive cell with fewer than 2 or more than 3
    neighbours becomes 0; an alive cell with 2 or 3 neighbours gets its age
    incremented, except that 255 stays 255; a dead cell with exactly 3
    neighbours gets age 1; every other cell is unchanged. *)
Theorem updateCells_applies_rule (cells : list Z) w h :
  wf_grid cells w h = true →
  ∃ cells', updateCells cells w h = Some cells'
    ∧ ∀ x y, 0 ≤ x < w → 0 ≤ y < h →
        ∃ c n c',
          at_ cells (y * w + x) = Some c
          ∧ neighbors cells x y w h = Some n
          ∧ at_ cells' (y * w + x) = Some c'
          ∧ (c ≠ 0 → n < 2 ∨ 3 < n → c' = 0)
          ∧ (c ≠ 0 → n = 2 ∨ n = 3 → c ≠ 255 → c' = c + 1)
          ∧ (c ≠ 0 → n = 2 ∨ n = 3 → c = 255 → c' = 255)
          ∧ (c = 0 → n = 3 → c' = 1)
          ∧ (c = 0 → n ≠ 3 → c' = c).
Proof.
  intros Hwf. exists (next_grid cells w h).
  split; [by apply updateCells_next_grid|].
  intros x y Hx Hy.
  destruct (wf_grid_unpack _ _ _ Hwf) as (_ & _ & _ & Hint & _).
  pose proof (index_in_grid w h x y Hx Hy) as Hi.
  assert (w ≤ w * h ∧ h ≤ w * h) as [Hw Hh] by nia.
  exists (cell cells w x y), (neighbor_count cells x y w h),
         (rule (cell cells w x y) (neighbor_count cells x y w h)).
  rewrite !at_lookup by lia.
  split; [by apply (cell_lookup cells w h Hwf)|].
  split; [apply neighbors_spec; [done|lia|lia]|].
  split; [by apply (next_grid_lookup cells w h Hwf)|].
  unfold rule. repeat split; intros; repeat case_decide; lia.
Qed.

Lemma updateCells_applies_rule_witness :
  ∃ cells', updateCells (block5 1) 5 5 = Some cells'
    ∧ ∀ x y, 0 ≤ x < 5 → 0 ≤ y < 5 →
        ∃ c n c',
          at_ (block5 1) (y * 5 + x) = Some c
          ∧ neighbors (block5 1) x y 5 5 = Some n
          ∧ at_ cells' (y * 5 + x) = Some c'
          ∧ (c ≠ 0 → n < 2 ∨ 3 < n → c' = 0)
          ∧ (c ≠ 0 → n = 2 ∨ n = 3 → c ≠ 255 → c' = c + 1)
          ∧ (c ≠ 0 → n = 2 ∨ n = 3 → c = 255 → c' = 255)
          ∧ (c = 0 → n = 3 → c' = 1)
          ∧ (c = 0 → n ≠ 3 → c' = c).
Proof. apply (updateCells_applies_rule (block5 1) 5 5). reflexivity. Defined.

(** ** The cell grid: the boundary of the neighbour count *)

(** The crafted 3x3 grid: with all nine cells alive the centre counts only
    the three neighbours off the top row and left column, and the corner
    [(0, 0)] still counts the centre. *)
Example full3_counts :
  neighbors full3 1 1 3 3 = Some 3
  ∧ neighbors full3 0 0 3 3 = Some 1
  ∧ neighbors full3 2 2 3 3 = Some 3
  ∧ isLive full3 2 2 3 3 = Some true
  ∧ isLive full3 0 1 3 3 = Some false
  ∧ isLive full3 1 0 3 3 = Some false.
Proof. repeat split; reflexivity. Qed.

(** C2. On a grid with [w, h >= 1] the neighbour count of every position is
    the number of its eight Moore neighbours that pass the probe; the probe
    never counts a cell of the top row or of the leftmost column, it counts
    every other cell of the grid when alive, those of the last column
    [x = w - 1] and of the last row [y = h - 1] included: among the cells of
    the grid only the edges [x = 0] and [y = 0] are excluded. *)
Theorem neighbor_boundary_policy (data : list Z) w h :
  1 ≤ w → 1 ≤ h → wf_grid data w h = true →
  (∀ x y, 0 ≤ x < w → 0 ≤ y < h →
     neighbors data x y w h
     = Some (foldl (λ n d, n + Z.b2z (live_neighbor data (x + d.1) (y + d.2) w h))
               0 moore))
  ∧ (∀ x y, x = 0 ∨ y = 0 →
       isLive data x y w h = Some false ∧ live_neighbor data x y w h = false)
  ∧ (∀ x y, 0 < x ≤ w - 1 → 0 < y ≤ h - 1 →
       isLive data x y w h = Some (truthy (cell data w x y))
       ∧ live_neighbor data x y w h = truthy (cell data w x y))
  ∧ (∀ x y, 0 ≤ x < w → 0 ≤ y < h →
       live_neighbor data x y w h = false → cell data w x y ≠ 0 →
       x = 0 ∨ y = 0).
Proof.
  intros Hw Hh Hwf.
  destruct (wf_grid_unpack _ _ _ Hwf) as (_ & _ & _ & Hint & _).
  assert (w ≤ w * h ∧ h ≤ w * h) as [Hw' Hh'] by nia.
  split; [|split; [|split]].
  - intros x y Hx Hy. rewrite (neighbors_spec data w h Hwf) by lia. done.
  - intros x y Hxy.
    assert (eligible x y w h = false) as He by (apply eligible_false; lia).
    split; [by apply isLive_outside|]. unfold live_neighbor. by rewrite He.
  - intros x y Hx Hy.
    assert (eligible x y w h = true) as He by (apply eligible_true; lia).
    split; [by apply isLive_inside|]. unfold live_neighbor. by rewrite He.
  - intros x y Hx Hy Hdead Halive. unfold live_neighbor in Hdead.
    apply andb_false_iff in Hdead as [He|Ht].
    + apply eligible_false in He. lia.
    + unfold truthy in Ht. apply negb_false_iff, Z.eqb_eq in Ht. done.
Qed.

Lemma neighbor_boundary_policy_witness :
  (∀ x y, 0 ≤ x < 3 → 0 ≤ y < 3 →
     neighbors full3 x y 3 3
     = Some (foldl (λ n d, n + Z.b2z (live_neighbor full3 (x + d.1) (y + d.2) 3 3))
               0 moore))
  ∧ (∀ x y, x = 0 ∨ y = 0 →
       isLive full3 x y 3 3 = Some false ∧ live_neighbor full3 x y 3 3 = false)
  ∧ (∀ x y, 0 < x ≤ 3 - 1 → 0 < y ≤ 3 - 1 →
       isLive full3 x y 3 3 = Some (truthy (cell full3 3 x y))
       ∧ live_neighbor full3 x y 3 3 = truthy (cell full3 3 x y))
  ∧ (∀ x y, 0 ≤ x < 3 → 0 ≤ y < 3 →
       live_neighbor full3 x y 3 3 = false → cell full3 3 x y ≠ 0 →
       x = 0 ∨ y = 0).
Proof. apply (neighbor_boundary_policy full3 3 3); [lia|lia|reflexivity]. Defined.

(** ** The cell grid: the block still life and saturation *)

(** C6. On the 5x5 grid whose only alive cells are the 2x2 block of age 1 at
    rows and columns 2-3, one call of [updateCells] leaves exactly those
    four cells alive, each with age 2, and every other cell dead. *)
Theorem block5_one_generation :
  updateCells (block5 1) 5 5 = Some (block5 2)
  ∧ ∀ x y, 0 ≤ x < 5 → 0 ≤ y < 5 →
      cell (block5 2) 5 x y = if decide (2 ≤ x ≤ 3 ∧ 2 ≤ y ≤ 3) then 2 else 0.
Proof.
  split; [reflexivity|].
  intros x y Hx Hy.
  assert (x = 0 ∨ x = 1 ∨ x = 2 ∨ x = 3 ∨ x = 4) as Hxs by lia.
  assert (y = 0 ∨ y = 1 ∨ y = 2 ∨ y = 3 ∨ y = 4) as Hys by lia.
  destruct Hxs as [->|[->|[->|[->| ->]]]];
    destruct Hys as [->|[->|[->|[->| ->]]]]; reflexivity.
Qed.

(** The block of any age is a still life whose cells age by one, up to 255,
    and each of its cells has three neighbours. *)
Lemma block5_ages a :
  1 ≤ a ≤ 255 →
  updateCells (block5 a) 5 5 = Some (block5 (Z.min 255 (a + 1)))
  ∧ neighbors (block5 a) 2 2 5 5 = Some 3.
Proof.
  intros Ha.
  assert (forallb (λ a, bool_decide
            (updateCells (block5 a) 5 5 = Some (block5 (Z.min 255 (a + 1)))
             ∧ neighbors (block5 a) 2 2 5 5 = Some 3))
            (Z.of_nat <$> seq 1 255) = true) as Hall by (vm_compute; reflexivity).
  rewrite forallb_forall in Hall.
  eapply bool_decide_eq_true_1, Hall, list_elem_of_In, list_elem_of_fmap.
  exists (Z.to_nat a). split; [lia|]. apply elem_of_seq. lia.
Qed.

Lemma block5_generations k :
  generations k (block5 1) 5 5 = Some (block5 (Z.min 255 (1 + Z.of_nat k))).
Proof.
  induction k as [|k IH]; [reflexivity|].
  simpl generations. rewrite IH. simpl.
  destruct (block5_ages (Z.min 255 (1 + Z.of_nat k))) as [-> _]; [lia|].
  do 2 f_equal. lia.
Qed.

(** C5. A live cell that has 2 or 3 neighbours at each of 260 consecutive
    generations has age [min 255 (c + k)] after [k] of them, so it is never
    reset to 0, and its age after the 260th is exactly 255. *)
Theorem age_saturates (cells : list Z) w h x y c :
  wf_grid cells w h = true →
  0 ≤ x < w → 0 ≤ y < h →
  at_ cells (y * w + x) = Some c → c ≠ 0 →
  (∀ k g, (k < 260)%nat → generations k cells w h = Some g →
          ∃ n, neighbors g x y w h = Some n ∧ (n = 2 ∨ n = 3)) →
  (∀ k, (k ≤ 260)%nat →
        ∃ g, generations k cells w h = Some g
             ∧ at_ g (y * w + x) = Some (Z.min 255 (c + Z.of_nat k)))
  ∧ ∃ g, generations 260 cells w h = Some g ∧ at_ g (y * w + x) = Some 255.
Proof.
  intros Hwf Hx Hy Hc Hc0 Hsurvive.
  destruct (wf_grid_unpack _ _ _ Hwf) as (_ & _ & _ & Hint & _).
  pose proof (index_in_grid w h x y Hx Hy) as Hi.
  assert (w ≤ w * h ∧ h ≤ w * h) as [Hw Hh] by nia.
  assert (1 ≤ c < 256) as Hc1.
  { pose proof (cell_u8 cells w h Hwf x y Hx Hy) as Hu.
    rewrite at_lookup, (cell_lookup cells w h Hwf) in Hc by lia.
    injection Hc as <-. lia. }
  assert (∀ k, (k ≤ 260)%nat →
            ∃ g, generations k cells w h = Some g ∧ wf_grid g w h = true
                 ∧ at_ g (y * w + x) = Some (Z.min 255 (c + Z.of_nat k))) as Hages.
  { induction k as [|k IH]; intros Hk.
    - exists cells. repeat split; [done|]. rewrite Hc. f_equal. lia.
    - destruct IH as (g & Hg & Hgwf & Hage); [lia|].
      destruct (Hsurvive k g) as (n & Hn & Hn23); [lia|done|].
      rewrite (neighbors_spec g w h Hgwf) in Hn by lia. injection Hn as Hn.
      rewrite at_lookup, (cell_lookup g w h Hgwf) in Hage by lia.
      injection Hage as Hage.
      exists (next_grid g w h). simpl. rewrite Hg. simpl.
      split; [by apply updateCells_next_grid|].
      split; [by apply next_grid_wf|].
      rewrite at_lookup, (next_grid_lookup g w h Hgwf) by lia.
      f_equal. rewrite Hn, Hage. unfold rule. repeat case_decide; lia. }
  split.
  - intros k Hk. destruct (Hages k Hk) as (g & Hg & _ & Hage). by exists g.
  - destruct (Hages 260%nat) as (g & Hg & _ & Hage); [lia|].
    exists g. split; [done|]. rewrite Hage. f_equal. lia.
Qed.

Lemma age_saturates_witness :
  (∀ k, (k ≤ 260)%nat →
        ∃ g, generations k (block5 1) 5 5 = Some g
             ∧ at_ g (2 * 5 + 2) = Some (Z.min 255 (1 + Z.of_nat k)))
  ∧ ∃ g, generations 260 (block5 1) 5 5 = Some g ∧ at_ g (2 * 5 + 2) = Some 255.
Proof.
  apply (age_saturates (block5 1) 5 5 2 2 1);
    [reflexivity|lia|lia|reflexivity|lia|].
  intros k g _ Hg. rewrite block5_generations in Hg. injection Hg as <-.
  exists 3. split; [|lia]. apply block5_ages. lia.
Defined.

(** ** The cell grid: accesses stay inside the buffer *)

(** C7. During an update of a grid every index stays in [0, w * h): for any
    coordinate, the ones outside the grid included, the probe answers false
    without touching the buffer unless the coordinate passes the guard, and
    then the index it reads is in range; [updateCells] completes, which in
    this model means that every read and every write was in range (an
    access out of range yields [None], as the last two parts say), and the
    grid keeps its length. *)
Theorem update_stays_in_bounds (cells : list Z) w h :
  wf_grid cells w h = true →
  (∀ (buffer : list Z) x y,
     ¬ (0 < x < w ∧ 0 < y < h) → isLive buffer x y w h = Some false)
  ∧ (∀ x y, 0 < x < w ∧ 0 < y < h →
       0 ≤ y * w + x < w * h
       ∧ ∃ c, at_ cells (y * w + x) = Some c
              ∧ isLive cells x y w h = Some (truthy c))
  ∧ (∃ cells', updateCells cells w h = Some cells'
               ∧ length cells' = length cells)
  ∧ (∀ (v : list Z) i c, at_ v i = Some c → 0 ≤ i < Z.of_nat (length v))
  ∧ (∀ (v v' : list Z) i a,
       assign v i a = Some v' →
       0 ≤ i < Z.of_nat (length v) ∧ length v' = length v).
Proof.
  intros Hwf. split; [|split; [|split; [|split]]].
  - intros buffer x y Hout. by apply isLive_outside, eligible_false.
  - intros x y Hin.
    pose proof (index_in_grid w h x y ltac:(lia) ltac:(lia)) as Hi.
    split; [done|]. exists (cell cells w x y).
    rewrite at_lookup by lia.
    split; [apply (cell_lookup cells w h Hwf); lia|].
    by apply isLive_inside, eligible_true.
  - exists (next_grid cells w h).
    split; [by apply updateCells_next_grid|apply next_grid_length].
  - intros v i c. unfold at_. destruct (Z.ltb_spec i 0); [done|].
    intros Hv%lookup_lt_Some. lia.
  - intros v v' i a. apply assign_Some.
Qed.

Lemma update_stays_in_bounds_witness :
  (∀ (buffer : list Z) x y,
     ¬ (0 < x < 5 ∧ 0 < y < 5) → isLive buffer x y 5 5 = Some false)
  ∧ (∀ x y, 0 < x < 5 ∧ 0 < y < 5 →
       0 ≤ y * 5 + x < 5 * 5
       ∧ ∃ c, at_ (block5 1) (y * 5 + x) = Some c
              ∧ isLive (block5 1) x y 5 5 = Some (truthy c))
  ∧ (∃ cells', updateCells (block5 1) 5 5 = Some cells'
               ∧ length cells' = length (block5 1))
  ∧ (∀ (v : list Z) i c, at_ v i = Some c → 0 ≤ i < Z.of_nat (length v))
  ∧ (∀ (v v' : list Z) i a,
       assign v i a = Some v' →
       0 ≤ i < Z.of_nat (length v) ∧ length v' = length v).
Proof. apply (update_stays_in_bounds (block5 1) 5 5). reflexivity. Defined.

(** ** The pixel encoder *)

Lemma encode_dead : encode 0 = 0.
Proof. reflexivity. Qed.

Lemma encode_alive k :
  0 < k < 256 →
  0 ≤ encode k < 2 ^ 32
  ∧ Z.shiftr (encode k) 24 = k
  ∧ Z.land (encode k) 0xffffff = 0x00ff00.
Proof.
  intros Hk.
  assert (forallb (λ k, bool_decide
            (0 ≤ encode k < 2 ^ 32
             ∧ Z.shiftr (encode k) 24 = k
             ∧ Z.land (encode k) 0xffffff = 0x00ff00))
            (Z.of_nat <$> seq 1 255) = true) as Hall by (vm_compute; reflexivity).
  rewrite forallb_forall in Hall.
  eapply bool_decide_eq_true_1, Hall, list_elem_of_In, list_elem_of_fmap.
  exists (Z.to_nat k). split; [lia|]. apply elem_of_seq. lia.
Qed.

(** The loop overwrites the first [length cells] pixels and leaves the rest
    of a longer buffer alone. *)
Lemma updatePixelData_spec (cells pixels : list Z) :
  (length cells ≤ length pixels)%nat →
  updatePixelData pixels cells
  = Some ((encode <$> cells) ++ drop (length cells) pixels).
Proof.
  revert pixels. induction cells as [|c cells IH]; intros pixels Hlen.
  - reflexivity.
  - destruct pixels as [|p pixels]; simpl in *; [lia|].
    by rewrite IH by lia.
Qed.

Lemma updatePixelData_short (cells pixels : list Z) :
  (length pixels < length cells)%nat → updatePixelData pixels cells = None.
Proof.
  revert pixels. induction cells as [|c cells IH]; intros pixels Hlen.
  - simpl in Hlen. lia.
  - destruct pixels as [|p pixels]; simpl in *; [done|].
    by rewrite IH by lia.
Qed.

Lemma updatePixelData_encode (cells pixels : list Z) :
  length pixels = length cells →
  updatePixelData pixels cells = Some (encode <$> cells).
Proof.
  intros Hlen. rewrite updatePixelData_spec by lia.
  rewrite drop_ge by lia. by rewrite app_nil_r.
Qed.

(** C3. The encoder is total on a buffer as long as the grid and works cell
    by cell, pixel [i] being [encode] of cell [i]; a cell of age [k > 0]
    gives a 32-bit pixel whose most significant byte is [k] and whose lower
    24 bits are the constant [0x00ff00]; a dead cell gives the pixel 0; a
    grid of dead cells gives a buffer of zeros. *)
Theorem pixel_encoder (pixels cells : list Z) :
  length pixels = length cells →
  (∃ pixels', updatePixelData pixels cells = Some pixels'
     ∧ length pixels' = length cells
     ∧ ∀ i c, cells !! i = Some c → pixels' !! i = Some (encode c))
  ∧ (∀ k, 0 < k < 256 →
       0 ≤ encode k < 2 ^ 32
       ∧ Z.shiftr (encode k) 24 = k
       ∧ Z.land (encode k) 0xffffff = 0x00ff00)
  ∧ encode 0 = 0
  ∧ (Forall (λ c, c = 0) cells →
     updatePixelData pixels cells = Some (replicate (length cells) 0)).
Proof.
  intros Hlen. split; [|split; [|split]].
  - exists (encode <$> cells). split; [by apply updatePixelData_encode|].
    split; [by rewrite length_fmap|].
    intros i c Hc. by rewrite list_lookup_fmap, Hc.
  - apply encode_alive.
  - apply encode_dead.
  - intros Hdead. rewrite updatePixelData_encode by done. f_equal.
    clear Hlen. induction Hdead as [|c cells -> _ IH]; [done|].
    simpl. by f_equal.
Qed.

Lemma pixel_encoder_witness :
  (∃ pixels', updatePixelData (replicate 25 7) (block5 200) = Some pixels'
     ∧ length pixels' = length (block5 200)
     ∧ ∀ i c, block5 200 !! i = Some c → pixels' !! i = Some (encode c))
  ∧ (∀ k, 0 < k < 256 →
       0 ≤ encode k < 2 ^ 32
       ∧ Z.shiftr (encode k) 24 = k
       ∧ Z.land (encode k) 0xffffff = 0x00ff00)
  ∧ encode 0 = 0
  ∧ (Forall (λ c, c = 0) (block5 200) →
     updatePixelData (replicate 25 7) (block5 200)
     = Some (replicate (length (block5 200)) 0)).
Proof. apply (pixel_encoder (replicate 25 7) (block5 200)). reflexivity. Defined.

Example encode_200 : encode 200 = 0xc800ff00.
Proof. reflexivity. Qed.

(** ** Seeding *)

Lemma seed_alive d : seed d = if d <? 15 then 1 else 0.
Proof. unfold seed. by destruct (d <? 15). Qed.

Lemma dist_values_range d : d ∈ dist_values ↔ 0 ≤ d ≤ 100.
Proof.
  unfold dist_values, dist_min, dist_max. rewrite list_elem_of_fmap. split.
  - intros (i & -> & Hi%elem_of_seq). simpl in Hi. lia.
  - intros Hd. exists (Z.to_nat d). split; [lia|]. apply elem_of_seq.
    simpl. lia.
Qed.

(** What [createCells] does.  For positive dimensions whose product fits an
    [int] it produces exactly [width * height] cells; cell [i] is 1 when the
    [i]-th draw is below 15 and 0 otherwise, so it depends on its own draw
    only; a draw is one of the 101 integers 0..100. *)
Lemma createCells_seeding width height (draw : nat → Z) :
  0 < width → 0 < height → width * height < 2 ^ 31 →
  (∃ cells, createCells width height draw = Some cells
     ∧ Z.of_nat (length cells) = width * height
     ∧ ∀ i, (i < length cells)%nat →
            cells !! i = Some (if draw i <? 15 then 1 else 0))
  ∧ (∀ d, d ∈ dist_values ↔ 0 ≤ d ≤ 100)
  ∧ length dist_values = 101%nat
  ∧ length alive_draws = 15%nat.
Proof.
  intros Hw Hh Hint. split; [|split; [|split]].
  - unfold createCells, int_mul. rewrite int_result_in by nia. simpl.
    unfold vector_of_zeros. rewrite (proj2 (Z.ltb_ge _ _)) by nia. simpl.
    eexists. split; [done|]. rewrite length_imap, length_replicate.
    split; [nia|]. intros i Hi.
    rewrite list_lookup_imap, lookup_replicate_2 by done. simpl.
    by rewrite seed_alive.
  - apply dist_values_range.
  - reflexivity.
  - reflexivity.
Qed.

Lemma createCells_seeding_witness :
  (∃ cells, createCells 3 2 (λ i, Z.of_nat i * 7) = Some cells
     ∧ Z.of_nat (length cells) = 3 * 2
     ∧ ∀ i, (i < length cells)%nat →
            cells !! i = Some (if Z.of_nat i * 7 <? 15 then 1 else 0))
  ∧ (∀ d, d ∈ dist_values ↔ 0 ≤ d ≤ 100)
  ∧ length dist_values = 101%nat
  ∧ length alive_draws = 15%nat.
Proof.
  apply (createCells_seeding 3 2 (λ i, Z.of_nat i * 7)); lia.
Defined.

Lemma seeding_not_15_percent :
  ¬ (100 * Z.of_nat (length alive_draws) = 15 * Z.of_nat (length dist_values)).
Proof. vm_compute. discriminate. Qed.

(** C4, at its failing input.  The roll is [dist(0, 100)] with an inclusive
    upper bound, so a draw is one of the 101 equally likely integers 0..100,
    the value 100 included.  Running [createCells] for one cell on each of
    them gives an alive cell (value 1) for 15 of the 101 outcomes and a dead
    cell (value 0) for the 86 others, the draw 100 among them: the cell is
    alive with probability 15/101, not the intended 15 in 100. *)
Theorem seeding_is_15_in_101 :
  (∀ d, d ∈ dist_values ↔ 0 ≤ d ≤ 100)
  ∧ length dist_values = 101%nat
  ∧ (∀ d, d ∈ dist_values →
          createCells 1 1 (λ _, d) = Some [if d <? 15 then 1 else 0])
  ∧ length (filter (λ d, createCells 1 1 (λ _, d) = Some [1]) dist_values)
    = 15%nat
  ∧ length (filter (λ d, createCells 1 1 (λ _, d) = Some [0]) dist_values)
    = 86%nat
  ∧ createCells 1 1 (λ _, 100) = Some [0]
  ∧ 100 * Z.of_nat
            (length (filter (λ d, createCells 1 1 (λ _, d) = Some [1]) dist_values))
    ≠ 15 * Z.of_nat (length dist_values).
Proof.
  split; [apply dist_values_range|]. split; [reflexivity|].
  split; [|split; [|split; [|split]]].
  - intros d _. unfold createCells. simpl. by rewrite seed_alive.
  - vm_compute. reflexivity.
  - vm_compute. reflexivity.
  - reflexivity.
  - vm_compute. discriminate.
Qed.

(** ** The frame loop *)

Lemma for_range_preserves {St} (I : St → Prop) body n i (s s' : St) :
  (∀ j t t', body j t = Some t' → I t → I t') →
  for_range n i body s = Some s' → I s → I s'.
Proof.
  intros Hbody. revert i s. induction n as [|n IH]; intros i s Hrun Hs.
  - simpl in Hrun. by injection Hrun as <-.
  - simpl in Hrun. destruct (body i s) as [t|] eqn:Ht; [|done].
    simpl in Hrun. eapply IH; [done|]. by eapply Hbody.
Qed.

Lemma updateCell_length (data cells cells' : list Z) w h y x :
  updateCell data w h y x cells = Some cells' → length cells' = length cells.
Proof.
  unfold updateCell. intros Hrun.
  destruct (neighbors _ _ _ _ _) as [n|]; [|done]. simpl in Hrun.
  destruct (at_ data _) as [d|]; [|done]. simpl in Hrun.
  repeat match type of Hrun with
         | (if ?b then _ else _) = _ => destruct b
         | (at_ ?v ?i ≫= _) = _ => destruct (at_ v i); [simpl in Hrun|done]
         end;
    try (by apply assign_Some in Hrun as [_ ?]);
    by injection Hrun as <-.
Qed.

(** Whatever the arguments, a call of [updateCells] that completes leaves
    the length of the grid alone. *)
Lemma updateCells_length (cells cells' : list Z) w h :
  updateCells cells w h = Some cells' → length cells' = length cells.
Proof.
  unfold updateCells, for_upto. intros Hrun.
  eapply (for_range_preserves (λ c : list Z, length c = length cells));
    [|exact Hrun|done].
  intros y t t' Hrow Ht.
  eapply (for_range_preserves (λ c : list Z, length c = length cells));
    [|exact Hrow|done].
  intros x u u' Hcell Hu. apply updateCell_length in Hcell. congruence.
Qed.

Lemma generations_head n (cells : list Z) w h :
  generations (S n) cells w h
  = updateCells cells w h ≫= λ cells', generations n cells' w h.
Proof.
  induction n as [|n IH].
  - simpl. by destruct (updateCells cells w h).
  - change (generations (S (S n)) cells w h)
      with (generations (S n) cells w h ≫= λ g, updateCells g w h).
    rewrite IH. by destruct (updateCells cells w h).
Qed.

Lemma tick_spec field_w field_h events (pixels cells : list Z) acts pixels' cells' run :
  length pixels = length cells →
  tick field_w field_h events pixels cells = Some (acts, pixels', cells', run) →
  acts = [Encode; Advance; UpdateTexture (encode <$> cells) (field_w * 4);
          RenderClear; RenderCopy; RenderPresent] ++ (PollEvent <$> events)
  ∧ pixels' = encode <$> cells
  ∧ updateCells cells (u32 field_w) (u32 field_h) = Some cells'
  ∧ length pixels' = length cells'
  ∧ run = drain events true.
Proof.
  intros Hlen. unfold tick. rewrite updatePixelData_encode by done. simpl.
  destruct (updateCells _ _ _) as [c|] eqn:Hc; [|done]. simpl.
  unfold int_mul, int_result. destruct (in_int _); [|done]. simpl.
  intros [= <- <- <- <-]. repeat split.
  apply updateCells_length in Hc. by rewrite length_fmap.
Qed.

(** C9. Every iteration of the frame loop performs, in this order, the
    encoding of the grid, the advance of the grid, the upload and the
    presentation of the pixel buffer, and the drain of all events pending
    then; the buffer uploaded in iteration [k] is the encoding of generation
    [k], the grid as it was when that iteration started. *)
Theorem frame_loop_order field_w field_h pending (pixels cells : list Z)
    ticks st k acts :
  length pixels = length cells →
  frame_loop field_w field_h pending pixels cells = (ticks, st) →
  ticks !! k = Some acts →
  ∃ events g,
    pending !! k = Some events
    ∧ generations k cells (u32 field_w) (u32 field_h) = Some g
    ∧ acts = [Encode; Advance; UpdateTexture (encode <$> g) (field_w * 4);
              RenderClear; RenderCopy; RenderPresent]
             ++ (PollEvent <$> events).
Proof.
  revert pixels cells ticks st k.
  induction pending as [|events pending IH];
    intros pixels cells ticks st k Hlen Hloop Hk.
  - simpl in Hloop. injection Hloop as <- <-. done.
  - simpl in Hloop.
    destruct (tick _ _ _ _ _) as [[[[acts0 pixels'] cells'] run]|] eqn:Htick;
      [|injection Hloop as <- <-; done].
    apply tick_spec in Htick as (-> & -> & Hcells & Hlen' & ->); [|done].
    destruct (drain events true).
    + destruct (frame_loop _ _ pending _ _) as [ticks' st'] eqn:Hrest.
      injection Hloop as <- <-.
      destruct k as [|k]; simpl in Hk.
      * injection Hk as <-. by exists events, cells.
      * destruct (IH _ _ _ _ k Hlen' Hrest Hk) as (ev & g & Hev & Hg & ->).
        exists ev, g. repeat split; [done|].
        by rewrite generations_head, Hcells.
    + injection Hloop as <- <-.
      destruct k as [|k]; simpl in Hk; [|done].
      injection Hk as <-. by exists events, cells.
Qed.

Lemma frame_loop_order_witness :
  ∃ events g,
    [[SDL_OTHER]; [SDL_QUIT]] !! 1%nat = Some events
    ∧ generations 1 (block5 1) (u32 5) (u32 5) = Some g
    ∧ [Encode; Advance; UpdateTexture (encode <$> block5 2) 20;
       RenderClear; RenderCopy; RenderPresent; PollEvent SDL_QUIT]
      = [Encode; Advance; UpdateTexture (encode <$> g) (5 * 4);
         RenderClear; RenderCopy; RenderPresent]
        ++ (PollEvent <$> events).
Proof.
  apply (frame_loop_order 5 5 [[SDL_OTHER]; [SDL_QUIT]]
           (replicate 25 0) (block5 1)
           [[Encode; Advance; UpdateTexture (encode <$> block5 1) 20;
             RenderClear; RenderCopy; RenderPresent; PollEvent SDL_OTHER];
            [Encode; Advance; UpdateTexture (encode <$> block5 2) 20;
             RenderClear; RenderCopy; RenderPresent; PollEvent SDL_QUIT]]
           (Exited 0) 1%nat);
    reflexivity.
Defined.

(** ** Exit status *)

Lemma handle_run run e : handle run e = run && handle true e.
Proof. destruct e as [|sym|]; simpl; [|destruct (sym =? _)|]; by destruct run. Qed.

Lemma drain_spec events run :
  drain events run = run && forallb (handle true) events.
Proof.
  unfold drain. revert run. induction events as [|e events IH]; intros run.
  - simpl. by rewrite andb_true_r.
  - simpl. rewrite IH, (handle_run run e). by rewrite andb_assoc.
Qed.

(** The loop is stopped by a quit event or an escape key press, and by
    nothing else. *)
Lemma drain_stops events :
  drain events true = false
  ↔ ∃ e, e ∈ events ∧ (e = SDL_QUIT ∨ e = SDL_KEYDOWN SDLK_ESCAPE).
Proof.
  rewrite drain_spec. simpl. split.
  - intros Hstop. induction events as [|e events IH]; [done|].
    simpl in Hstop. apply andb_false_iff in Hstop as [He|Hrest].
    + exists e. split; [left|].
      destruct e as [|sym|]; simpl in He; [by left| |done].
      destruct (Z.eqb_spec sym SDLK_ESCAPE) as [->|]; [by right|done].
    + destruct (IH Hrest) as (e' & He' & Hstop'). exists e'. split; [by right|done].
  - intros (e & He & Hstop). induction events as [|e' events IH].
    + by apply elem_of_nil in He.
    + simpl. apply elem_of_cons in He as [<-|He].
      * by destruct Hstop as [-> | ->].
      * rewrite (IH He). by rewrite andb_false_r.
Qed.

Lemma frame_loop_exit field_w field_h pending (pixels cells : list Z) ticks code :
  frame_loop field_w field_h pending pixels cells = (ticks, Exited code) →
  code = 0
  ∧ ∃ events e, events ∈ pending ∧ e ∈ events
                ∧ (e = SDL_QUIT ∨ e = SDL_KEYDOWN SDLK_ESCAPE).
Proof.
  revert pixels cells ticks.
  induction pending as [|events pending IH]; intros pixels cells ticks Hloop.
  - done.
  - simpl in Hloop.
    destruct (tick _ _ _ _ _) as [[[[acts pixels'] cells'] run]|] eqn:Htick;
      [|done].
    assert (run = drain events true) as ->.
    { unfold tick in Htick.
      destruct (updatePixelData _ _); [|done]. simpl in Htick.
      destruct (updateCells _ _ _); [|done]. simpl in Htick.
      destruct (int_mul _ _); [|done]. simpl in Htick. congruence. }
    destruct (drain events true) eqn:Hrun.
    + destruct (frame_loop _ _ pending _ _) as [ticks' st'] eqn:Hrest.
      injection Hloop as <- ->.
      destruct (IH _ _ _ Hrest) as (-> & ev & e & Hev & He).
      split; [done|]. exists ev, e. split; [by right|done].
    + injection Hloop as <- <-. split; [done|].
      apply drain_stops in Hrun as (e & He & Hstop).
      exists events, e. split; [left|done].
Qed.

(** On a well-formed grid the loop does stop, with status 0, at the first
    batch of events that holds a quit event or an escape key press. *)
Lemma frame_loop_stops field_w field_h pending (pixels cells : list Z) :
  wf_grid cells (u32 field_w) (u32 field_h) = true →
  length pixels = length cells →
  in_int (field_w * 4) = true →
  (∃ events e, events ∈ pending ∧ e ∈ events
               ∧ (e = SDL_QUIT ∨ e = SDL_KEYDOWN SDLK_ESCAPE)) →
  ∃ ticks, frame_loop field_w field_h pending pixels cells = (ticks, Exited 0).
Proof.
  intros Hwf Hlen Hpitch (events & e & Hev & He).
  revert pixels cells Hwf Hlen.
  induction pending as [|batch pending IH]; intros pixels cells Hwf Hlen.
  - by apply elem_of_nil in Hev.
  - simpl. unfold tick. rewrite updatePixelData_encode by done. simpl.
    rewrite updateCells_next_grid by done. simpl.
    unfold int_mul, int_result. rewrite Hpitch. simpl.
    destruct (drain batch true) eqn:Hrun; [|by eexists].
    apply elem_of_cons in Hev as [->|Hev].
    { assert (drain batch true = false) as Hstop by (apply drain_stops; eauto).
      congruence. }
    destruct (IH Hev (encode <$> cells) (next_grid cells (u32 field_w) (u32 field_h)))
      as [ticks ->].
    + by apply next_grid_wf.
    + by rewrite length_fmap, next_grid_length.
    + by eexists.
Qed.

(** The two vectors of [main] are created unless the product of the
    dimensions is negative. *)
Lemma create_fails_negative width height (draw : nat → Z) n :
  int_mul width height = Some n →
  createPixelData width height = None
  ∨ createCells width height draw = None →
  - 2 ^ 31 ≤ width * height < 0.
Proof.
  unfold createPixelData, createCells, int_mul, int_result, in_int.
  destruct (- 2 ^ 31 <=? width * height) eqn:Hlo; [|done].
  destruct (width * height <? 2 ^ 31); [|done].
  apply Z.leb_le in Hlo. simpl. intros _. unfold vector_of_zeros.
  destruct (Z.ltb_spec (width * height) 0); [lia|].
  intros [?|?]; done.
Qed.

(** The process exits with 0 only after a quit event or an escape key
    press, and with 1 only when the initialization fails or the field has a
    negative area. *)
Lemma main_exit_code (P : Platform) code :
  status (main P) = Exited code →
  (code = 0 ∧ ∃ events e, events ∈ pending P ∧ e ∈ events
                          ∧ (e = SDL_QUIT ∨ e = SDL_KEYDOWN SDLK_ESCAPE))
  ∨ (code = 1 ∧ (sdl_init P ≠ 0 ∨ display_mode P = None
                 ∨ window_ok P = false ∨ renderer_ok P = false
                 ∨ texture_ok P = false
                 ∨ ∃ width height,
                     display_mode P = Some (width, height)
                     ∧ - 2 ^ 31 ≤ Z.quot width 2 * Z.quot height 2 < 0)).
Proof.
  unfold main. destruct (Z.eqb_spec (sdl_init P) 0) as [Hinit|Hinit]; simpl.
  2: { intros [= <-]. right. auto 8. }
  destruct (display_mode P) as [[width height]|].
  2: { intros [= <-]. right. auto 8. }
  destruct (window_ok P). 2: { intros [= <-]. right. auto 8. }
  destruct (renderer_ok P). 2: { intros [= <-]. right. auto 8. }
  destruct (texture_ok P). 2: { intros [= <-]. right. auto 8. }
  simpl.
  destruct (int_mul _ _) as [n|] eqn:Hn; [|done].
  destruct (createPixelData _ _) as [pixels|] eqn:Hpixels.
  2: { intros [= <-]. right. split; [done|]. do 5 right.
       exists width, height. split; [done|].
       apply (create_fails_negative _ _ (draw P) n Hn). by left. }
  destruct (createCells _ _ _) as [cells|] eqn:Hcells.
  2: { intros [= <-]. right. split; [done|]. do 5 right.
       exists width, height. split; [done|].
       apply (create_fails_negative _ _ (draw P) n Hn). by right. }
  destruct (frame_loop _ _ _ _ _) as [ticks st] eqn:Hloop.
  destruct st as [code'| |]; [|done|done].
  simpl. intros [= ->]. left. by eapply frame_loop_exit.
Qed.

(** Whatever is thrown, the handler prints the string of a plain
    [std::exception]. *)
Lemma handler_prints_library_string (P : Platform) before thrown :
  handler P before thrown
  = {| trace := before ++ [Cerr (exception_what P); Quit]; status := Exited 1 |}.
Proof. reflexivity. Qed.

(** C8, at its failing input.  When [SDL_Init] fails the process exits with
    1, but the error stream receives the library's string for a plain
    [std::exception], not the message of the exception that was thrown. *)
Theorem init_failure_message_lost :
  main failing_platform
  = {| trace := [Cerr "std::exception"; Quit]; status := Exited 1 |}
  ∧ (Cerr "SDL initialize failed!" ∉ trace (main failing_platform))
  ∧ ∀ P, sdl_init P ≠ 0 → trace (main P) = [Cerr (exception_what P); Quit].
Proof.
  split; [reflexivity|]. split.
  - simpl. intros Hin. apply list_elem_of_In in Hin. simpl in Hin.
    destruct Hin as [Heq|[Heq|[]]]; discriminate Heq.
  - intros P HP. unfold main.
    by destruct (Z.eqb_spec (sdl_init P) 0).
Qed.

(** The normal run: escape during the second frame, exit status 0. *)
Example demo_run_exits_0 : status (main demo_platform) = Exited 0.
Proof. reflexivity. Qed.

(** ** Determinism *)

(** The seeded grid depends on the draws it consumes, one per cell, and on
    no later draw. *)
Lemma createCells_ext width height (draw1 draw2 : nat → Z) :
  (∀ i : nat, Z.of_nat i < width * height → draw1 i = draw2 i) →
  createCells width height draw1 = createCells width height draw2.
Proof.
  intros Hdraw. unfold createCells, int_mul, int_result.
  destruct (in_int _); [|done]. simpl. unfold vector_of_zeros.
  destruct (Z.ltb_spec (width * height) 0); [done|]. simpl. f_equal.
  apply list_eq. intros i. rewrite !list_lookup_imap.
  destruct (replicate _ _ !! i) as [c|] eqn:Hc; [|done]. simpl.
  apply lookup_replicate_1 in Hc as [_ Hi]. rewrite Hdraw by lia. done.
Qed.

(** C10.  The code of [updateCells] and [updatePixelData] can depend on
    something else than the grid and its dimensions in three ways only: by
    an access outside a buffer, by what the pixel buffer held before the
    call, and by the random generator.  None happens.  Two runs on equal
    well-formed grids and equal dimensions both complete and return the same
    grid, the next generation [next_grid] of the input; two runs of the
    encoder on the same grid return the same buffer, [encode] of each cell,
    even when the buffers they overwrite differ; the same holds after any
    number of generations; and the process consumes draws in [createCells]
    only: two platforms that differ only in draws that the seeding does not
    consume run alike. *)
Theorem update_and_encode_deterministic
    (cells1 cells2 pixels1 pixels2 : list Z) w1 h1 w2 h2 :
  wf_grid cells1 w1 h1 = true →
  cells1 = cells2 → w1 = w2 → h1 = h2 →
  length pixels1 = length cells1 → length pixels2 = length cells2 →
  (updateCells cells1 w1 h1 = Some (next_grid cells1 w1 h1)
   ∧ updateCells cells2 w2 h2 = Some (next_grid cells1 w1 h1))
  ∧ (updatePixelData pixels1 cells1 = Some (encode <$> cells1)
     ∧ updatePixelData pixels2 cells2 = Some (encode <$> cells1))
  ∧ (∀ k, ∃ g, generations k cells1 w1 h1 = Some g
               ∧ generations k cells2 w2 h2 = Some g
               ∧ updatePixelData pixels1 g = Some (encode <$> g)
               ∧ updatePixelData pixels2 g = Some (encode <$> g))
  ∧ ∀ P Q : Platform,
      sdl_init P = sdl_init Q → display_mode P = display_mode Q →
      window_ok P = window_ok Q → renderer_ok P = renderer_ok Q →
      texture_ok P = texture_ok Q → pending P = pending Q →
      exception_what P = exception_what Q →
      (∀ width height (i : nat),
         display_mode P = Some (width, height) →
         Z.of_nat i < Z.quot width 2 * Z.quot height 2 →
         draw P i = draw Q i) →
      main P = main Q.
Proof.
  intros Hwf <- <- <- Hlen1 Hlen2.
  split; [by rewrite updateCells_next_grid|].
  split; [by rewrite !updatePixelData_encode|]. split.
  - intros k. destruct (generations_wf k cells1 w1 h1 Hwf) as (g & Hg & Hgwf).
    exists g. split; [done|]. split; [done|].
    destruct (wf_grid_unpack _ _ _ Hwf) as (_ & _ & Hc & _).
    destruct (wf_grid_unpack _ _ _ Hgwf) as (_ & _ & Hgl & _).
    rewrite !updatePixelData_encode by lia. done.
  - intros [init mode win ren tex drawP events msg]
           [init' mode' win' ren' tex' drawQ events' msg'].
    simpl. intros -> -> -> -> -> -> -> Hdraw.
    unfold main.
    cbn [sdl_init display_mode window_ok renderer_ok texture_ok draw pending].
    destruct mode' as [[width height]|]; [|done].
    rewrite (createCells_ext _ _ drawP drawQ); [done|].
    intros i Hi. by eapply Hdraw.
Qed.

Lemma update_and_encode_deterministic_witness :
  (updateCells (block5 1) 5 5 = Some (next_grid (block5 1) 5 5)
   ∧ updateCells (block5 1) 5 5 = Some (next_grid (block5 1) 5 5))
  ∧ (updatePixelData (replicate 25 7) (block5 1) = Some (encode <$> block5 1)
     ∧ updatePixelData (replicate 25 0) (block5 1) = Some (encode <$> block5 1))
  ∧ (∀ k, ∃ g, generations k (block5 1) 5 5 = Some g
               ∧ generations k (block5 1) 5 5 = Some g
               ∧ updatePixelData (replicate 25 7) g = Some (encode <$> g)
               ∧ updatePixelData (replicate 25 0) g = Some (encode <$> g))
  ∧ ∀ P Q : Platform,
      sdl_init P = sdl_init Q → display_mode P = display_mode Q →
      window_ok P = window_ok Q → renderer_ok P = renderer_ok Q →
      texture_ok P = texture_ok Q → pending P = pending Q →
      exception_what P = exception_what Q →
      (∀ width height (i : nat),
         display_mode P = Some (width, height) →
         Z.of_nat i < Z.quot width 2 * Z.quot height 2 →
         draw P i = draw Q i) →
      main P = main Q.
Proof.
  apply (update_and_encode_deterministic
           (block5 1) (block5 1) (replicate 25 7) (replicate 25 0) 5 5 5 5);
    reflexivity.
Defined.

(** * Further properties of the code *)

(** ** The neighbour count *)

Lemma wf_grid_pack (cells : list Z) w h :
  0 ≤ w → 0 ≤ h → Z.of_nat (length cells) = w * h → w * h < 2 ^ 31 →
  Forall (λ c, 0 ≤ c < 256) cells →
  wf_grid cells w h = true.
Proof.
  intros Hw Hh Hlen Hint Hu8. unfold wf_grid.
  rewrite !andb_true_iff. repeat split.
  - by apply Z.leb_le.
  - by apply Z.leb_le.
  - by apply Z.eqb_eq.
  - by apply Z.ltb_lt.
  - apply forallb_forall. intros c Hc%list_elem_of_In.
    rewrite Forall_forall in Hu8. specialize (Hu8 c Hc).
    unfold is_u8. apply andb_true_iff. split; [apply Z.leb_le|apply Z.ltb_lt]; lia.
Qed.

Lemma wf_grid_insert (cells : list Z) w h i v :
  wf_grid cells w h = true → 0 ≤ v < 256 →
  wf_grid (<[i := v]> cells) w h = true.
Proof.
  intros (Hw & Hh & Hlen & Hint & Hu8)%wf_grid_unpack Hv.
  apply wf_grid_pack; try done.
  - by rewrite length_insert.
  - by apply Forall_insert.
Qed.

Lemma count_foldl_ext (f g : Z * Z → bool) (l : list (Z * Z)) n :
  (∀ d, d ∈ l → f d = g d) →
  foldl (λ n d, n + Z.b2z (f d)) n l = foldl (λ n d, n + Z.b2z (g d)) n l.
Proof.
  revert n. induction l as [|d l IH]; intros n Hfg; [done|].
  simpl. rewrite (Hfg d) by left. apply IH. intros d' Hd'. apply Hfg. by right.
Qed.

(** The count depends on the aliveness of the eligible Moore neighbours and
    on nothing else. *)
Lemma neighbor_count_ext (a b : list Z) w h x y :
  (∀ d, d ∈ moore → eligible (x + d.1) (y + d.2) w h = true →
        truthy (cell a w (x + d.1) (y + d.2))
        = truthy (cell b w (x + d.1) (y + d.2))) →
  neighbor_count a x y w h = neighbor_count b x y w h.
Proof.
  intros Hsame. unfold neighbor_count.
  apply (count_foldl_ext
           (λ d, live_neighbor a (x + d.1) (y + d.2) w h)
           (λ d, live_neighbor b (x + d.1) (y + d.2) w h)).
  intros d Hd. unfold live_neighbor.
  destruct (eligible _ _ _ _) eqn:He; [|done]. simpl. by apply Hsame.
Qed.

Lemma moore_offsets d :
  d ∈ moore → -1 ≤ d.1 ≤ 1 ∧ -1 ≤ d.2 ≤ 1 ∧ (d.1 ≠ 0 ∨ d.2 ≠ 0).
Proof.
  unfold moore. intros Hd.
  repeat (apply elem_of_cons in Hd as [->|Hd]); simpl; try lia.
  by apply elem_of_nil in Hd.
Qed.

(** X1. The count of a cell of the grid is at most 8 and does not include
    the cell itself: overwriting the cell leaves its own count alone. *)
Theorem neighbors_at_most_8_without_self (data : list Z) w h x y v :
  wf_grid data w h = true → 0 ≤ x < w → 0 ≤ y < h → 0 ≤ v < 256 →
  ∃ n, neighbors data x y w h = Some n ∧ 0 ≤ n ≤ 8
       ∧ neighbors (<[Z.to_nat (y * w + x) := v]> data) x y w h = Some n.
Proof.
  intros Hwf Hx Hy Hv.
  pose proof (wf_grid_insert data w h (Z.to_nat (y * w + x)) v Hwf Hv) as Hwf'.
  destruct (wf_grid_unpack _ _ _ Hwf) as (_ & _ & Hlen & Hint & _).
  assert (w ≤ w * h ∧ h ≤ w * h) as [Hw Hh] by nia.
  exists (neighbor_count data x y w h).
  rewrite !neighbors_spec by (done || lia).
  split; [done|]. split; [apply neighbor_count_bound|]. f_equal.
  apply neighbor_count_ext. intros d Hd He.
  apply moore_offsets in Hd as (Hd1 & Hd2 & Hd0).
  apply eligible_true in He as [Hnx Hny].
  destruct d as [dx dy]. simpl in *.
  unfold cell. rewrite list_lookup_insert_ne; [done|].
  assert (dy = -1 ∨ dy = 0 ∨ dy = 1) as [->|[->| ->]] by lia;
    intros Heq; apply Z2Nat.inj in Heq; nia.
Qed.

Lemma neighbors_at_most_8_without_self_witness :
  ∃ n, neighbors full3 1 1 3 3 = Some n ∧ 0 ≤ n ≤ 8
       ∧ neighbors (<[Z.to_nat (1 * 3 + 1) := 0]> full3) 1 1 3 3 = Some n.
Proof.
  apply (neighbors_at_most_8_without_self full3 3 3 1 1 0);
    [reflexivity|lia|lia|lia].
Defined.

(** X2. Cells of the top row and of the leftmost column never influence a
    count: two grids that agree on every cell with [x > 0] and [y > 0] give
    the same count at every position. *)
Theorem neighbors_ignore_first_row_and_column (a b : list Z) w h x y :
  wf_grid a w h = true → wf_grid b w h = true →
  (∀ i j, 0 < i < w → 0 < j < h → cell a w i j = cell b w i j) →
  0 ≤ x < w → 0 ≤ y < h →
  neighbors a x y w h = neighbors b x y w h.
Proof.
  intros Ha Hb Hsame Hx Hy.
  destruct (wf_grid_unpack _ _ _ Ha) as (_ & _ & _ & Hint & _).
  assert (w ≤ w * h ∧ h ≤ w * h) as [Hw Hh] by nia.
  rewrite !neighbors_spec by (done || lia). f_equal.
  apply neighbor_count_ext. intros d _ [Hi Hj]%eligible_true.
  by rewrite Hsame.
Qed.

Lemma neighbors_ignore_first_row_and_column_witness :
  neighbors full3 0 1 3 3 = neighbors inner3 0 1 3 3.
Proof.
  apply (neighbors_ignore_first_row_and_column full3 inner3 3 3 0 1);
    [reflexivity|reflexivity| |lia|lia].
  intros i j Hi Hj.
  assert (i = 1 ∨ i = 2) as [-> | ->] by lia;
    assert (j = 1 ∨ j = 2) as [-> | ->] by lia; reflexivity.
Defined.

(** ** Edges of one generation *)

Lemma neighbor_count_none (data : list Z) w h x y :
  (∀ d, d ∈ moore → live_neighbor data (x + d.1) (y + d.2) w h = false) →
  neighbor_count data x y w h = 0.
Proof.
  intros Hnone. unfold neighbor_count.
  rewrite (count_foldl_ext _ (λ _, false)); [reflexivity|].
  intros d Hd. by apply Hnone.
Qed.

Lemma rule_lonely c n : 0 ≤ n ≤ 1 → rule c n = 0.
Proof. intros. unfold rule. repeat case_decide; lia. Qed.

(** X3. A grid of width 1 or of height 1 has no eligible neighbour at all:
    one update leaves every cell dead, whatever the grid held. *)
Theorem thin_grid_dies (cells : list Z) w h :
  wf_grid cells w h = true → w ≤ 1 ∨ h ≤ 1 →
  updateCells cells w h = Some (replicate (length cells) 0).
Proof.
  intros Hwf Hthin. rewrite updateCells_next_grid by done. f_equal.
  apply list_eq. intros j. unfold next_grid. rewrite list_lookup_imap.
  destruct (cells !! j) as [c|] eqn:Hc; simpl.
  - rewrite lookup_replicate_2 by (by eapply lookup_lt_Some). f_equal.
    unfold next_cell. rewrite Hc. simpl.
    rewrite neighbor_count_none; [by apply rule_lonely|].
    intros d _. unfold live_neighbor.
    assert (eligible (Z.of_nat j mod w + d.1) (Z.of_nat j / w + d.2) w h = false)
      as -> by (apply eligible_false; lia).
    done.
  - symmetry. apply lookup_ge_None_2. rewrite length_replicate.
    by apply lookup_ge_None_1.
Qed.

Lemma thin_grid_dies_witness :
  updateCells [1; 255; 0; 1] 4 1 = Some (replicate (length [1; 255; 0; 1]) 0).
Proof. apply (thin_grid_dies [1; 255; 0; 1] 4 1); [reflexivity|lia]. Defined.

(** X4. The cell at the origin can count only its diagonal neighbour
    [(1, 1)]: whatever the grid, it is dead after an update. *)
Theorem origin_cell_dies (cells : list Z) w h :
  wf_grid cells w h = true → 1 ≤ w → 1 ≤ h →
  ∃ cells', updateCells cells w h = Some cells' ∧ cells' !! 0%nat = Some 0.
Proof.
  intros Hwf Hw Hh. exists (next_grid cells w h).
  split; [by apply updateCells_next_grid|].
  pose proof (next_grid_lookup cells w h Hwf 0 0 ltac:(lia) ltac:(lia)) as Hz.
  change (Z.to_nat (0 * w + 0)) with 0%nat in Hz.
  rewrite Hz. f_equal. apply rule_lonely.
  unfold neighbor_count, moore, live_neighbor, eligible. simpl.
  match goal with |- context [Z.b2z ?b] => generalize b end.
  intros []; simpl; lia.
Qed.

Lemma origin_cell_dies_witness :
  ∃ cells', updateCells full3 3 3 = Some cells' ∧ cells' !! 0%nat = Some 0.
Proof. apply (origin_cell_dies full3 3 3); [reflexivity|lia|lia]. Defined.

Lemma for_range_skip {St} (body : Z → St → option St) n i (s : St) :
  (∀ j t, body j t = Some t) → for_range n i body s = Some s.
Proof.
  intros Hbody. revert i. induction n as [|n IH]; intros i; [done|].
  simpl. rewrite Hbody. simpl. apply IH.
Qed.

(** X5. With a width or a height of zero the loops have no iteration: the
    grid is returned as it is, whatever its contents and its length. *)
Theorem updateCells_empty_dimension (cells : list Z) w h :
  w = 0 ∨ h = 0 → updateCells cells w h = Some cells.
Proof.
  intros [-> | ->]; unfold updateCells, for_upto; [|done].
  by apply for_range_skip.
Qed.

Lemma updateCells_empty_dimension_witness :
  updateCells [1; 2; 3] 0 7 = Some [1; 2; 3].
Proof. apply (updateCells_empty_dimension [1; 2; 3] 0 7). by left. Defined.

Lemma for_range_Some_body {St} (body : Z → St → option St) n i (s s' : St) j :
  for_range n i body s = Some s' → i ≤ j < i + Z.of_nat n →
  ∃ t t', body j t = Some t'.
Proof.
  revert i s. induction n as [|n IH]; intros i s Hrun Hj; [lia|].
  simpl in Hrun. destruct (body i s) as [t|] eqn:Ht; [|done].
  simpl in Hrun. destruct (decide (j = i)) as [->|Hne]; [by eauto|].
  apply (IH (i + 1) t); [done|lia].
Qed.

(** X6. Dimensions that promise more cells than the buffer holds make the
    update read past the end of the buffer: no grid is returned. *)
Theorem updateCells_short_buffer (cells : list Z) w h :
  0 < w → 0 < h → w * h < 2 ^ 32 →
  Z.of_nat (length cells) < w * h →
  updateCells cells w h = None.
Proof.
  intros Hw Hh Hint Hshort.
  destruct (updateCells cells w h) as [cells'|] eqn:Hrun; [exfalso|done].
  unfold updateCells, for_upto in Hrun.
  set (L := Z.of_nat (length cells)) in *.
  pose proof (Z.div_mod L w ltac:(lia)) as Hdm.
  pose proof (Z.mod_pos_bound L w Hw) as Hmod.
  assert (0 ≤ L / w < h) as Hrow.
  { split; [apply Z.div_pos; lia|apply Z.div_lt_upper_bound; lia]. }
  destruct (for_range_Some_body _ _ _ _ _ (L / w) Hrun) as (t & t' & Hy); [lia|].
  destruct (for_range_Some_body _ _ _ _ _ (L mod w) Hy) as (u & u' & Hx); [lia|].
  unfold updateCell in Hx.
  destruct (neighbors _ _ _ _ _) as [n|]; [|done]. simpl in Hx.
  replace (L / w * w + L mod w) with L in Hx by lia.
  rewrite u32_small, (at_lookup cells) in Hx by lia.
  unfold L in Hx. rewrite Nat2Z.id in Hx.
  rewrite (lookup_ge_None_2 cells (length cells)) in Hx by lia. done.
Qed.

Lemma updateCells_short_buffer_witness : updateCells [1; 1; 1] 2 2 = None.
Proof. apply (updateCells_short_buffer [1; 1; 1] 2 2); simpl; lia. Defined.

(** X7. Nothing is born from nothing: a grid of dead cells is returned
    unchanged. *)
Theorem dead_grid_stays_dead (cells : list Z) w h :
  wf_grid cells w h = true → Forall (λ c, c = 0) cells →
  updateCells cells w h = Some cells.
Proof.
  intros Hwf Hdead. rewrite updateCells_next_grid by done. f_equal.
  apply list_eq. intros j. unfold next_grid. rewrite list_lookup_imap.
  destruct (cells !! j) as [c|] eqn:Hc; simpl; [|done]. f_equal.
  pose proof (Forall_lookup_1 _ _ _ _ Hdead Hc) as ->.
  unfold next_cell. rewrite Hc. simpl.
  rewrite neighbor_count_none; [done|].
  intros d _. unfold live_neighbor, cell.
  destruct (cells !! Z.to_nat _) as [c|] eqn:Hc'; simpl.
  - pose proof (Forall_lookup_1 _ _ _ _ Hdead Hc') as ->.
    by destruct (eligible _ _ _ _).
  - by destruct (eligible _ _ _ _).
Qed.

Lemma dead_grid_stays_dead_witness :
  updateCells (replicate 6 0) 3 2 = Some (replicate 6 0).
Proof.
  apply (dead_grid_stays_dead (replicate 6 0) 3 2); [reflexivity|].
  by apply Forall_replicate.
Defined.

(** ** Ages and liveness across generations *)

Lemma truthy_rule c1 c2 n :
  0 ≤ c1 < 256 → 0 ≤ c2 < 256 → truthy c1 = truthy c2 →
  truthy (rule c1 n) = truthy (rule c2 n).
Proof.
  unfold truthy. intros H1 H2 Hsame.
  destruct (Z.eqb_spec c1 0), (Z.eqb_spec c2 0); try done;
    unfold rule; repeat case_decide; try lia;
    repeat match goal with |- context [?a =? 0] => destruct (Z.eqb_spec a 0) end;
    try done; lia.
Qed.

(** X8. The age is only a counter: which cells are alive in the next
    generation depends on which cells are alive now, not on their ages. *)
Theorem liveness_ignores_ages (a b : list Z) w h :
  wf_grid a w h = true → wf_grid b w h = true →
  truthy <$> a = truthy <$> b →
  ∃ a' b', updateCells a w h = Some a' ∧ updateCells b w h = Some b'
           ∧ truthy <$> a' = truthy <$> b'.
Proof.
  intros Ha Hb Hsame.
  exists (next_grid a w h), (next_grid b w h).
  split; [by apply updateCells_next_grid|].
  split; [by apply updateCells_next_grid|].
  destruct (wf_grid_unpack _ _ _ Ha) as (_ & _ & _ & _ & Hua).
  destruct (wf_grid_unpack _ _ _ Hb) as (_ & _ & _ & _ & Hub).
  assert (∀ k, truthy (default 0 (a !! k)) = truthy (default 0 (b !! k))) as Hk.
  { intros k. pose proof (f_equal (λ l, l !! k) Hsame) as Hl. simpl in Hl.
    rewrite !list_lookup_fmap in Hl.
    destruct (a !! k), (b !! k); simpl in *; congruence. }
  apply list_eq. intros j. unfold next_grid.
  rewrite !list_lookup_fmap, !list_lookup_imap.
  pose proof (f_equal (λ l, l !! j) Hsame) as Hj. simpl in Hj.
  rewrite !list_lookup_fmap in Hj.
  destruct (a !! j) as [ca|] eqn:Hca, (b !! j) as [cb|] eqn:Hcb;
    simpl in *; try done.
  f_equal. unfold next_cell. rewrite Hca, Hcb. simpl.
  rewrite (neighbor_count_ext a b) by (intros d _ _; apply Hk).
  apply truthy_rule.
  - by apply (Forall_lookup_1 _ _ _ _ Hua Hca).
  - by apply (Forall_lookup_1 _ _ _ _ Hub Hcb).
  - congruence.
Qed.

Lemma liveness_ignores_ages_witness :
  ∃ a' b', updateCells (block5 1) 5 5 = Some a'
           ∧ updateCells (block5 200) 5 5 = Some b'
           ∧ truthy <$> a' = truthy <$> b'.
Proof.
  apply (liveness_ignores_ages (block5 1) (block5 200) 5 5); reflexivity.
Defined.




(** ** The pixel buffer *)

(** X10. A pixel buffer longer than the grid is legal: the first
    [length cells] pixels are overwritten with the encoded cells, the
    remaining pixels and the length of the buffer are left alone. *)
Theorem updatePixelData_keeps_tail (pixels cells : list Z) :
  (length cells ≤ length pixels)%nat →
  ∃ pixels', updatePixelData pixels cells = Some pixels'
    ∧ length pixels' = length pixels
    ∧ (∀ i c, cells !! i = Some c → pixels' !! i = Some (encode c))
    ∧ (∀ i, (length cells ≤ i)%nat → pixels' !! i = pixels !! i).
Proof.
  intros Hlen. eexists. split; [by apply updatePixelData_spec|].
  split; [|split].
  - rewrite length_app, length_fmap, length_drop. lia.
  - intros i c Hc. rewrite lookup_app_l
      by (rewrite length_fmap; by eapply lookup_lt_Some).
    by rewrite list_lookup_fmap, Hc.
  - intros i Hi. rewrite lookup_app_r by (by rewrite length_fmap).
    rewrite length_fmap, lookup_drop. f_equal. lia.
Qed.

Lemma updatePixelData_keeps_tail_witness :
  ∃ pixels', updatePixelData [9; 9; 9; 9] [0; 1; 200] = Some pixels'
    ∧ length pixels' = length [9; 9; 9; 9]
    ∧ (∀ i c, [0; 1; 200] !! i = Some c → pixels' !! i = Some (encode c))
    ∧ (∀ i, (length [0; 1; 200] ≤ i)%nat → pixels' !! i = [9; 9; 9; 9] !! i).
Proof. apply (updatePixelData_keeps_tail [9; 9; 9; 9] [0; 1; 200]). simpl. lia. Defined.

(** X11. A pixel buffer shorter than the grid makes the encoder write past
    its end: no buffer is returned. *)
Theorem updatePixelData_overruns_short_buffer (pixels cells : list Z) :
  (length pixels < length cells)%nat → updatePixelData pixels cells = None.
Proof.
  revert pixels. induction cells as [|c cells IH]; intros pixels Hshort.
  - simpl in Hshort. lia.
  - destruct pixels as [|p pixels]; [done|].
    simpl in *. by rewrite IH by lia.
Qed.

Lemma updatePixelData_overruns_short_buffer_witness :
  updatePixelData [9; 9] [0; 1; 200] = None.
Proof. apply (updatePixelData_overruns_short_buffer [9; 9] [0; 1; 200]). simpl. lia. Defined.

Lemma encode_byte c :
  0 ≤ c < 256 →
  0 ≤ encode c < 2 ^ 32 ∧ Z.shiftr (encode c) 24 = c ∧ (encode c = 0 ↔ c = 0).
Proof.
  intros Hc. destruct (decide (c = 0)) as [->|Hne].
  - repeat split; done.
  - destruct (encode_alive c) as (Hr & Hs & Hl); [lia|].
    repeat split; try done; try lia.
    intros He. rewrite He in Hs. by rewrite Z.shiftr_0_l in Hs.
Qed.

(** X12. The encoding loses nothing: shifting each pixel right by 24 bits
    gives back the ages, a pixel is zero exactly when its cell is dead, and
    every pixel fits 32 bits. *)
Theorem encode_round_trip (cells : list Z) :
  Forall (λ c, 0 ≤ c < 256) cells →
  (λ p, Z.shiftr p 24) <$> (encode <$> cells) = cells
  ∧ Forall (λ p, 0 ≤ p < 2 ^ 32) (encode <$> cells)
  ∧ ∀ i c, cells !! i = Some c → ((encode <$> cells) !! i = Some 0 ↔ c = 0).
Proof.
  intros Hu8. split; [|split].
  - induction Hu8 as [|c cells Hc _ IH]; [done|].
    simpl. f_equal; [by apply encode_byte|done].
  - apply Forall_fmap. eapply Forall_impl; [done|].
    intros c Hc. simpl. by apply encode_byte.
  - intros i c Hc. rewrite list_lookup_fmap, Hc. simpl.
    pose proof (Forall_lookup_1 _ _ _ _ Hu8 Hc) as Hb. simpl in Hb.
    destruct (encode_byte c Hb) as (_ & _ & Hz).
    split; [intros [= He]; by apply Hz|intros ->; done].
Qed.

Lemma encode_round_trip_witness :
  (λ p, Z.shiftr p 24) <$> (encode <$> aged4) = aged4
  ∧ Forall (λ p, 0 ≤ p < 2 ^ 32) (encode <$> aged4)
  ∧ ∀ i c, aged4 !! i = Some c → ((encode <$> aged4) !! i = Some 0 ↔ c = 0).
Proof.
  apply (encode_round_trip aged4). unfold aged4. repeat constructor; lia.
Defined.

(** ** Seeding and allocation *)

Lemma create_lengths width height (draw : nat → Z) (pixels cells : list Z) :
  createPixelData width height = Some pixels →
  createCells width height draw = Some cells →
  length pixels = length cells
  ∧ Z.of_nat (length cells) = width * height.
Proof.
  unfold createPixelData, createCells, int_mul, int_result.
  destruct (in_int _); [|done]. simpl. unfold vector_of_zeros.
  destruct (Z.ltb_spec (width * height) 0); [done|]. simpl.
  intros [= <-] [= <-].
  rewrite length_imap, !length_replicate. lia.
Qed.

Lemma seeded_cells_01 (draw : nat → Z) n :
  Forall (λ c, c = 0 ∨ c = 1) (imap (λ i _, seed (draw i)) (replicate n 0)).
Proof.
  apply Forall_lookup. intros i c Hc. rewrite list_lookup_imap in Hc.
  destruct (replicate _ _ !! i); [|done]. simpl in Hc. injection Hc as <-.
  rewrite seed_alive. destruct (draw i <? 15); auto.
Qed.

Lemma create_buffers_wf width height (draw : nat → Z) :
  0 ≤ width → 0 ≤ height → width * height < 2 ^ 31 →
  ∃ cells pixels,
    createCells width height draw = Some cells
    ∧ createPixelData width height = Some pixels
    ∧ wf_grid cells width height = true
    ∧ length pixels = length cells.
Proof.
  intros Hw Hh Hint.
  unfold createCells, createPixelData, int_mul.
  rewrite int_result_in by nia. simpl.
  unfold vector_of_zeros. rewrite (proj2 (Z.ltb_ge _ _)) by nia. simpl.
  eexists _, _. split; [done|]. split; [done|]. split.
  - apply wf_grid_pack; try done.
    + rewrite length_imap, length_replicate. nia.
    + eapply Forall_impl; [apply seeded_cells_01|]. simpl. lia.
  - by rewrite length_imap.
Qed.

(** X13. For dimensions that are not negative and whose product fits an
    [int], the two buffers [main] allocates fit together: the seeded grid is
    well-formed for these dimensions, holds only 0 and 1, and the pixel
    buffer has the same length and is all zero. *)
Theorem created_buffers_fit width height (draw : nat → Z) :
  0 ≤ width → 0 ≤ height → width * height < 2 ^ 31 →
  ∃ cells pixels,
    createCells width height draw = Some cells
    ∧ createPixelData width height = Some pixels
    ∧ wf_grid cells width height = true
    ∧ length pixels = length cells
    ∧ Forall (λ c, c = 0 ∨ c = 1) cells
    ∧ Forall (λ p, p = 0) pixels.
Proof.
  intros Hw Hh Hint.
  destruct (create_buffers_wf width height draw Hw Hh Hint)
    as (cells & pixels & Hcells & Hpixels & Hwf & Hlen).
  exists cells, pixels. repeat split; try done.
  - revert Hcells. unfold createCells, int_mul, int_result.
    destruct (in_int _); [|done]. simpl. unfold vector_of_zeros.
    destruct (_ <? 0); [done|]. simpl. intros [= <-]. apply seeded_cells_01.
  - revert Hpixels. unfold createPixelData, int_mul, int_result.
    destruct (in_int _); [|done]. simpl. unfold vector_of_zeros.
    destruct (_ <? 0); [done|]. intros [= <-]. by apply Forall_replicate.
Qed.

Lemma created_buffers_fit_witness :
  ∃ cells pixels,
    createCells 3 2 (λ i, Z.of_nat i * 7) = Some cells
    ∧ createPixelData 3 2 = Some pixels
    ∧ wf_grid cells 3 2 = true
    ∧ length pixels = length cells
    ∧ Forall (λ c, c = 0 ∨ c = 1) cells
    ∧ Forall (λ p, p = 0) pixels.
Proof. apply (created_buffers_fit 3 2 (λ i, Z.of_nat i * 7)); lia. Defined.

(** ** Events *)

(** X14. Draining a batch of events clears the flag exactly when the batch
    holds a quit event or a key-down event for the escape key; other keys
    and other events leave it alone, and nothing sets it again. *)
Theorem drain_clears_run_iff events run :
  drain events run = false
  ↔ run = false
    ∨ ∃ e, e ∈ events ∧ (e = SDL_QUIT ∨ e = SDL_KEYDOWN SDLK_ESCAPE).
Proof.
  rewrite drain_spec, andb_false_iff.
  by rewrite <- (drain_stops events), drain_spec.
Qed.

Lemma tick_shape field_w field_h events (pixels cells : list Z)
    acts pixels' cells' run :
  tick field_w field_h events pixels cells = Some (acts, pixels', cells', run) →
  run = drain events true
  ∧ acts = [Encode; Advance; UpdateTexture pixels' (field_w * 4);
            RenderClear; RenderCopy; RenderPresent] ++ (PollEvent <$> events).
Proof.
  unfold tick.
  destruct (updatePixelData _ _); [|done]. simpl.
  destruct (updateCells _ _ _); [|done]. simpl.
  unfold int_mul, int_result. destruct (in_int _); [|done]. simpl.
  by intros [= <- <- <- <-].
Qed.

(** X15. Once a batch of events has requested the stop, the loop is over:
    the batches after it are never polled and change nothing. *)
Theorem frame_loop_ignores_later_events field_w field_h pre batch rest
    (pixels cells : list Z) :
  drain batch true = false →
  frame_loop field_w field_h (pre ++ batch :: rest) pixels cells
  = frame_loop field_w field_h (pre ++ [batch]) pixels cells.
Proof.
  intros Hstop. revert pixels cells.
  induction pre as [|events pre IH]; intros pixels cells; simpl.
  - destruct (tick _ _ _ _ _) as [[[[acts px] c] run]|] eqn:Htick; [|done].
    apply tick_shape in Htick as [-> _]. by rewrite Hstop.
  - destruct (tick _ _ _ _ _) as [[[[acts px] c] run]|] eqn:Htick; [|done].
    destruct run; [|done]. by rewrite IH.
Qed.

Lemma frame_loop_ignores_later_events_witness :
  frame_loop 5 5 ([[SDL_OTHER]] ++ [SDL_QUIT] :: [[SDL_OTHER]; [SDL_KEYDOWN 13]])
    (replicate 25 0) (block5 1)
  = frame_loop 5 5 ([[SDL_OTHER]] ++ [[SDL_QUIT]]) (replicate 25 0) (block5 1).
Proof.
  apply (frame_loop_ignores_later_events 5 5 [[SDL_OTHER]] [SDL_QUIT]
           [[SDL_OTHER]; [SDL_KEYDOWN 13]] (replicate 25 0) (block5 1)).
  reflexivity.
Defined.

(** ** The process as a whole *)

(** X16. The exit status is 1 exactly when the start-up fails: when
    [SDL_Init] or the display mode query fails, when the window, the
    renderer or the texture cannot be created, or when the area of the
    field is a negative [int], which makes the vector constructor throw
    (allocation is assumed to succeed otherwise). *)
Theorem exit_1_iff_startup_fails (P : Platform) :
  status (main P) = Exited 1
  ↔ (sdl_init P ≠ 0 ∨ display_mode P = None ∨ window_ok P = false
     ∨ renderer_ok P = false ∨ texture_ok P = false
     ∨ ∃ width height,
         display_mode P = Some (width, height)
         ∧ - 2 ^ 31 ≤ Z.quot width 2 * Z.quot height 2 < 0).
Proof.
  split.
  - intros [[Hcode _]|[_ Hfail]]%main_exit_code; [lia|done].
  - intros Hfail. unfold main.
    destruct (Z.eqb_spec (sdl_init P) 0) as [Hinit|Hinit]; [|done].
    simpl. destruct (display_mode P) as [[width height]|] eqn:Hmode; [|done].
    destruct (window_ok P) eqn:Hwin; [|done].
    destruct (renderer_ok P) eqn:Hren; [|done].
    destruct (texture_ok P) eqn:Htex; [|done].
    simpl.
    assert (- 2 ^ 31 ≤ Z.quot width 2 * Z.quot height 2 < 0) as Hneg.
    { destruct Hfail as [?|[?|[?|[?|[?|(W & H & [= <- <-] & ?)]]]]]; done. }
    unfold createPixelData, int_mul. rewrite int_result_in by lia. simpl.
    unfold vector_of_zeros. by rewrite (proj2 (Z.ltb_lt _ _)) by lia.
Qed.

(** A display of negative width: the three handles are created and
    released, and the process exits with 1. *)
Example negative_display_exits_1 :
  main negative_platform
  = {| trace := [Cout "Create window"; Cout "Create renderer";
                 Cout "Create texture"; Cout "Destroy texture";
                 Cout "Destroy renderer"; Cout "Destroy window";
                 Cerr "std::exception"; Quit];
       status := Exited 1 |}.
Proof. reflexivity. Qed.

Lemma quot_2_bounds z : 0 ≤ z → 0 ≤ Z.quot z 2 ∧ 2 * Z.quot z 2 ≤ z.
Proof.
  intros Hz. rewrite Z.quot_div_nonneg by lia.
  pose proof (Z.div_mod z 2 ltac:(lia)).
  pose proof (Z.mod_pos_bound z 2 ltac:(lia)). lia.
Qed.

(** X17. When the initialization succeeds on a display whose field (half
    the display in each dimension) has an area that fits an [int], the
    process never leaves its buffers, and it exits with status 0 as soon
    as a quit event or an escape key press is among the polled events. *)
Theorem main_exits_0 (P : Platform) width height :
  sdl_init P = 0 → display_mode P = Some (width, height) →
  window_ok P = true → renderer_ok P = true → texture_ok P = true →
  0 ≤ width < 2 ^ 30 → 0 ≤ height < 2 ^ 31 →
  Z.quot width 2 * Z.quot height 2 < 2 ^ 31 →
  (∃ events e, events ∈ pending P ∧ e ∈ events
               ∧ (e = SDL_QUIT ∨ e = SDL_KEYDOWN SDLK_ESCAPE)) →
  status (main P) = Exited 0.
Proof.
  intros Hinit Hmode Hwin Hren Htex Hw Hh Hint Hstop.
  destruct (quot_2_bounds width) as [Hfw0 Hfw]; [lia|].
  destruct (quot_2_bounds height) as [Hfh0 Hfh]; [lia|].
  destruct (create_buffers_wf (Z.quot width 2) (Z.quot height 2) (draw P))
    as (cells & pixels & Hcells & Hpixels & Hwf & Hlen); [done..|].
  unfold main. rewrite Hinit, Hmode, Hwin, Hren, Htex. simpl.
  unfold int_mul. rewrite int_result_in by nia. simpl.
  rewrite Hpixels, Hcells.
  destruct (frame_loop_stops (Z.quot width 2) (Z.quot height 2)
              (pending P) pixels cells) as [ticks ->]; try done.
  - by rewrite !u32_small by lia.
  - unfold in_int. apply andb_true_iff.
    split; [apply Z.leb_le|apply Z.ltb_lt]; lia.
Qed.

Lemma main_exits_0_witness : status (main demo_platform) = Exited 0.
Proof.
  apply (main_exits_0 demo_platform 6 4); try reflexivity; try (simpl; lia).
  exists [SDL_KEYDOWN SDLK_ESCAPE; SDL_OTHER], (SDL_KEYDOWN SDLK_ESCAPE).
  split; [right; left|]. split; [left|by right].
Defined.

Lemma couts_app t1 t2 : couts (t1 ++ t2) = couts t1 ++ couts t2.
Proof. apply omap_app. Qed.

Lemma quits_app t1 t2 : quits (t1 ++ t2) = quits t1 ++ quits t2.
Proof. apply omap_app. Qed.

Lemma polls_silent events :
  couts (PollEvent <$> events) = [] ∧ quits (PollEvent <$> events) = [].
Proof. induction events as [|e events [IH1 IH2]]; [done|]. simpl. done. Qed.

(** The frame loop prints nothing and does not shut the library down. *)
Lemma frame_loop_silent field_w field_h pending (pixels cells : list Z) ticks st :
  frame_loop field_w field_h pending pixels cells = (ticks, st) →
  couts (concat ticks) = [] ∧ quits (concat ticks) = [].
Proof.
  revert pixels cells ticks.
  induction pending as [|events pending IH]; intros pixels cells ticks Hloop.
  - simpl in Hloop. by injection Hloop as <- <-.
  - simpl in Hloop.
    destruct (tick _ _ _ _ _) as [[[[acts px] c] run]|] eqn:Htick;
      [|by injection Hloop as <- <-].
    apply tick_shape in Htick as [_ ->].
    destruct (polls_silent events) as [Hc Hq].
    destruct run.
    + destruct (frame_loop _ _ pending _ _) as [ticks' st'] eqn:Hrest.
      injection Hloop as <- <-. destruct (IH _ _ _ Hrest) as [IH1 IH2].
      simpl. rewrite couts_app, quits_app, Hc, Hq, IH1, IH2. done.
    + injection Hloop as <- <-. simpl.
      rewrite app_nil_r, Hc, Hq. done.
Qed.

(** X18. Whenever the process exits, with either status, it has destroyed
    exactly the handles it had created, in the reverse order of their
    creation, and it has called [SDL_Quit] exactly once. *)
Theorem handles_released_in_reverse (P : Platform) code :
  status (main P) = Exited code →
  (∃ n, couts (trace (main P)) = take n creates ++ reverse (take n destroys))
  ∧ quits (trace (main P)) = [Quit].
Proof.
  unfold main. destruct (sdl_init P =? 0); simpl.
  2: { intros _. split; [by exists 0%nat|done]. }
  destruct (display_mode P) as [[width height]|].
  2: { intros _. split; [by exists 0%nat|done]. }
  destruct (window_ok P); simpl.
  2: { intros _. split; [by exists 1%nat|done]. }
  destruct (renderer_ok P); simpl.
  2: { intros _. split; [by exists 2%nat|done]. }
  destruct (texture_ok P); simpl.
  2: { intros _. split; [by exists 3%nat|done]. }
  destruct (int_mul _ _); [|done].
  destruct (createPixelData _ _) as [pixels|].
  2: { intros _. split; [by exists 3%nat|done]. }
  destruct (createCells _ _ _) as [cells|].
  2: { intros _. split; [by exists 3%nat|done]. }
  destruct (frame_loop _ _ _ _ _) as [ticks st] eqn:Hloop.
  destruct (frame_loop_silent _ _ _ _ _ _ _ Hloop) as [Hc Hq].
  destruct st as [code'| |]; [|done|done]. simpl. intros _.
  rewrite couts_app, quits_app, Hc, Hq. split; [by exists 3%nat|done].
Qed.

Lemma handles_released_in_reverse_witness :
  (∃ n, couts (trace (main demo_platform))
        = take n creates ++ reverse (take n destroys))
  ∧ quits (trace (main demo_platform)) = [Quit].
Proof. apply (handles_released_in_reverse demo_platform 0). reflexivity. Defined.



(** The texture failure in full: the handles are destroyed, then the
    library's string is written, then [SDL_Quit] is called. *)
Example texture_failure_trace :
  trace (main texture_failing_platform)
  = [Cout "Create window"; Cout "Create renderer"; Cout "Create texture";
     Cout "Destroy texture"; Cout "Destroy renderer"; Cout "Destroy window";
     Cerr "std::exception"; Quit].
Proof. reflexivity. Qed.

Lemma elem_of_concat_1 {A} (x : A) (ls : list (list A)) :
  x ∈ concat ls → ∃ l, l ∈ ls ∧ x ∈ l.
Proof.
  induction ls as [|l ls IH]; simpl; [by intros ?%elem_of_nil|].
  intros [Hx|Hx]%elem_of_app.
  - exists l. split; [left|done].
  - destruct (IH Hx) as (l' & Hl' & Hx'). exists l'. split; [by right|done].
Qed.

Lemma frame_loop_uploads field_w field_h pending (pixels cells : list Z)
    ticks st acts px pitch :
  length pixels = length cells →
  frame_loop field_w field_h pending pixels cells = (ticks, st) →
  acts ∈ ticks → UpdateTexture px pitch ∈ acts →
  length px = length cells ∧ pitch = field_w * 4.
Proof.
  revert pixels cells ticks.
  induction pending as [|events pending IH];
    intros pixels cells ticks Hlen Hloop Hacts Hup.
  - simpl in Hloop. injection Hloop as <- <-. by apply elem_of_nil in Hacts.
  - simpl in Hloop.
    destruct (tick _ _ _ _ _) as [[[[acts0 px'] c'] run]|] eqn:Htick;
      [|injection Hloop as <- <-; by apply elem_of_nil in Hacts].
    apply tick_spec in Htick as (-> & -> & Hcells & Hlen' & ->); [|done].
    assert (acts ∈ [[Encode; Advance; UpdateTexture (encode <$> cells) (field_w * 4);
                     RenderClear; RenderCopy; RenderPresent]
                    ++ (PollEvent <$> events)] →
            length px = length cells ∧ pitch = field_w * 4) as Hhere.
    { intros ->%list_elem_of_singleton.
      apply elem_of_app in Hup as [Hup|Hup].
      - apply list_elem_of_In in Hup. simpl in Hup.
        destruct Hup as [Hup|[Hup|[Hup|[Hup|[Hup|[Hup|[]]]]]]];
          try discriminate Hup.
        injection Hup as <- <-. by rewrite length_fmap.
      - apply list_elem_of_fmap in Hup as (e & He & _). discriminate He. }
    destruct (drain events true).
    + destruct (frame_loop _ _ pending _ _) as [ticks' st'] eqn:Hrest.
      injection Hloop as <- <-.
      apply elem_of_cons in Hacts as [->|Hacts]; [apply Hhere; by left|].
      destruct (IH _ _ _ Hlen' Hrest Hacts Hup) as [Hpx ->].
      split; [|done]. apply updateCells_length in Hcells. congruence.
    + injection Hloop as <- <-. by apply Hhere.
Qed.

(** X20. Every buffer handed to [SDL_UpdateTexture] has the size of the
    field, half the display in each dimension, and the pitch of one row of
    the field: the pixel buffer is never resized. *)
Theorem uploads_have_field_size (P : Platform) width height px pitch :
  display_mode P = Some (width, height) →
  UpdateTexture px pitch ∈ trace (main P) →
  Z.of_nat (length px) = Z.quot width 2 * Z.quot height 2
  ∧ pitch = Z.quot width 2 * 4.
Proof.
  intros Hmode. unfold main. rewrite Hmode.
  assert (∀ t : list Action,
            Forall (λ a, ∀ p q, a ≠ UpdateTexture p q) t →
            UpdateTexture px pitch ∈ t → False) as Hnone.
  { intros t Ht Hin. rewrite Forall_forall in Ht. by eapply Ht. }
  destruct (sdl_init P =? 0); simpl.
  2: { intros Hin. exfalso. revert Hin. apply Hnone. by repeat constructor. }
  destruct (window_ok P); simpl.
  2: { intros Hin. exfalso. revert Hin. apply Hnone. by repeat constructor. }
  destruct (renderer_ok P); simpl.
  2: { intros Hin. exfalso. revert Hin. apply Hnone. by repeat constructor. }
  destruct (texture_ok P); simpl.
  2: { intros Hin. exfalso. revert Hin. apply Hnone. by repeat constructor. }
  destruct (int_mul _ _).
  2: { intros Hin. exfalso. revert Hin. apply Hnone. by repeat constructor. }
  destruct (createPixelData _ _) as [pixels|] eqn:Hpixels.
  2: { intros Hin. exfalso. revert Hin. apply Hnone. by repeat constructor. }
  destruct (createCells _ _ _) as [cells|] eqn:Hcells.
  2: { intros Hin. exfalso. revert Hin. apply Hnone. by repeat constructor. }
  destruct (create_lengths _ _ _ _ _ Hpixels Hcells) as [Hlen Hsize].
  destruct (frame_loop _ _ _ _ _) as [ticks st] eqn:Hloop.
  assert (UpdateTexture px pitch ∈ concat ticks →
          Z.of_nat (length px) = Z.quot width 2 * Z.quot height 2
          ∧ pitch = Z.quot width 2 * 4) as Hticks.
  { intros (acts & Hacts & Hup)%elem_of_concat_1.
    destruct (frame_loop_uploads _ _ _ _ _ _ _ _ _ _ Hlen Hloop Hacts Hup)
      as [-> ->].
    done. }
  assert (∀ rest : list Action,
            Forall (λ a, ∀ p q, a ≠ UpdateTexture p q) rest →
            UpdateTexture px pitch
              ∈ [Cout "Create window"; Cout "Create renderer";
                 Cout "Create texture"] ++ concat ticks ++ rest →
            Z.of_nat (length px) = Z.quot width 2 * Z.quot height 2
            ∧ pitch = Z.quot width 2 * 4) as Hall.
  { intros rest Hrest [Hin|[Hin|Hin]%elem_of_app]%elem_of_app.
    - exfalso. revert Hin. apply Hnone. by repeat constructor.
    - by apply Hticks.
    - exfalso. revert Hin. by apply Hnone. }
  destruct st as [code| |]; simpl.
  - apply (Hall [Quit; Cout "Destroy texture"; Cout "Destroy renderer";
                 Cout "Destroy window"]). by repeat constructor.
  - intros Hin. apply (Hall []); [constructor|]. by rewrite app_nil_r.
  - intros Hin. apply (Hall []); [constructor|]. by rewrite app_nil_r.
Qed.

Lemma uploads_have_field_size_witness :
  Z.of_nat (length [16842496; 16842496; 16842496; 0; 0; 0])
  = Z.quot 6 2 * Z.quot 4 2
  ∧ 12 = Z.quot 6 2 * 4.
Proof.
  apply (uploads_have_field_size demo_platform 6 4
           [16842496; 16842496; 16842496; 0; 0; 0] 12); [reflexivity|].
  vm_compute. right. right. right. right. right. left.
Defined.
